(** * Authentication core of the job-tracker backend

    A shallow embedding of
      - [shared/middlewares/auth.ts]          ([authenticate], [optionalAuth]),
      - [shared/middlewares/errorHandler.ts]  ([errorHandler], [handlePrismaError]),
      - [shared/middlewares/validate.ts]      ([validate]),
      - [modules/auth/auth.service.ts]        ([register], [login], [getProfile],
                                               [generateToken]),
      - [modules/auth/auth.types.ts]          ([RegisterSchema], [LoginSchema]),
      - [modules/auth/auth.controller.ts]     ([getMe]) and the [/me] route,
    followed by the properties of the specification that concern them.

    JavaScript exceptions are values of [Result]; a middleware's call of
    [next()] or [next(err)] is a value of [Outcome]; the users table is a
    list of rows threaded through the calls that write to it.  The three
    npm libraries the code calls (jsonwebtoken, bcrypt, zod) are described
    by their contracts: type classes whose operations the embedding calls
    exactly where the source calls the library. *)

From stdpp Require Import base option list strings gmap.
From Stdlib Require Import ZArith Lia Ascii.

Set Warnings "-register-all".
Local Open Scope string_scope.
Local Open Scope Z_scope.

(** ** JavaScript strings *)

(** [s.startsWith(p)] *)
Definition startsWith (s p : string) : bool := String.prefix p s.

(** [s.substring(start)]: the characters from index [start] on; the empty
    string when [start] is past the end. *)
Fixpoint substring (start : nat) (s : string) : string :=
  match start, s with
  | O, _ => s
  | S n, String _ s' => substring n s'
  | S _, EmptyString => EmptyString
  end.

(** [parts.join(sep)] *)
Definition join (sep : string) (parts : list string) : string :=
  String.concat sep parts.

(** JavaScript truthiness of a possibly-undefined string: [undefined] and
    the empty string are falsy. *)
Definition truthy (s : option string) : bool :=
  match s with
  | None => false
  | Some "" => false
  | Some _ => true
  end.

(** ** JavaScript values (request payloads, response objects) *)

Inductive JsValue : Type :=
| JUndefined
| JNull
| JBool (b : bool)
| JNum (n : Z)
| JStr (s : string)
| JDate (epoch : Z)
| JArr (items : list JsValue)
| JObj (props : list (string * JsValue)).

(** [o[k]] on a value: [undefined] when [o] has no such property or is not
    an object. *)
Definition prop (o : JsValue) (k : string) : JsValue :=
  match o with
  | JObj props =>
      match List.find (fun kv => String.eqb (fst kv) k) props with
      | Some kv => snd kv
      | None => JUndefined
      end
  | _ => JUndefined
  end.

(** A nullable column or optional input as a JavaScript value. *)
Definition nullable (v : option string) : JsValue :=
  match v with
  | Some s => JStr s
  | None => JNull
  end.

(** ** Errors *)

(** One violation found by a zod schema: the path of the offending value
    and the message.  Every schema of this code base is built from objects
    and strings, so path components are property names. *)
Record ZodIssue := { issue_path : list string; issue_message : string }.

(** The error objects that travel through [next(err)].

    [JsonWebTokenError], [TokenExpiredError] and [NotBeforeError] are the
    three classes of the jsonwebtoken library; the last two are declared
    there as subclasses of the first.  [OtherError] is any other [Error],
    with its [name] and [message] properties. *)
Inductive JsError : Type :=
| AppError (statusCode : Z) (message : string)
| PrismaClientKnownRequestError (code : string) (target : option (list string))
| ZodError (issues : list ZodIssue)
| JsonWebTokenError (message : string)
| TokenExpiredError (message : string) (expiredAt : Z)
| NotBeforeError (message : string) (date : Z)
| OtherError (name message : string).

(** Modelled from the spec: [shared/errors/AppError.ts] is not among the
    sources.  Its subclasses carry the status codes of the spec's error
    taxonomy: authentication failures 401, duplicate registration 409,
    client-input failures 422. *)
Definition UnauthorizedError (message : string) : JsError := AppError 401 message.
Definition ConflictError (message : string) : JsError := AppError 409 message.
Definition ValidationError (message : string) : JsError := AppError 422 message.

(** [err instanceof AppError] *)
Definition instanceof_AppError (err : JsError) : bool :=
  match err with AppError _ _ => true | _ => false end.

(** [err instanceof Prisma.PrismaClientKnownRequestError] *)
Definition instanceof_PrismaClientKnownRequestError (err : JsError) : bool :=
  match err with PrismaClientKnownRequestError _ _ => true | _ => false end.

(** [err instanceof ZodError] *)
Definition instanceof_ZodError (err : JsError) : bool :=
  match err with ZodError _ => true | _ => false end.

(** [err instanceof jwt.JsonWebTokenError]: true of the class and of its
    two subclasses. *)
Definition instanceof_JsonWebTokenError (err : JsError) : bool :=
  match err with
  | JsonWebTokenError _ | TokenExpiredError _ _ | NotBeforeError _ _ => true
  | _ => false
  end.

(** [err instanceof jwt.TokenExpiredError] *)
Definition instanceof_TokenExpiredError (err : JsError) : bool :=
  match err with TokenExpiredError _ _ => true | _ => false end.

(** [err.name], read by [errorHandler] only once the three [instanceof]
    tests have failed. *)
Definition error_name (err : JsError) : string :=
  match err with
  | AppError _ _ => "Error"
  | PrismaClientKnownRequestError _ _ => "PrismaClientKnownRequestError"
  | ZodError _ => "ZodError"
  | JsonWebTokenError _ => "JsonWebTokenError"
  | TokenExpiredError _ _ => "TokenExpiredError"
  | NotBeforeError _ _ => "NotBeforeError"
  | OtherError name _ => name
  end.

(** [err.message], read by [errorHandler] in its last branch only. *)
Definition error_message (err : JsError) : string :=
  match err with
  | AppError _ m | JsonWebTokenError m | TokenExpiredError m _
  | NotBeforeError m _ | OtherError _ m => m
  | PrismaClientKnownRequestError _ _ | ZodError _ => ""
  end.

(** A computation that returns or throws. *)
Inductive Result (A : Type) : Type :=
| Ok (a : A)
| Throw (err : JsError).
Arguments Ok {A} a.
Arguments Throw {A} err.

(** Sequencing: a throw skips the rest ([x ← r; k] below). *)
#[export] Instance Result_bind : MBind Result := fun A B k r =>
  match r with
  | Ok a => k a
  | Throw err => Throw err
  end.

(** ** The libraries, by contract *)

(** The content of a signed token: the key it was signed with, the two
    payload fields this code base puts in it, and the [iat] and [exp]
    claims the library adds (seconds since the epoch). *)
Record Jws := {
  jws_key : string;
  jws_userId : string;
  jws_email : string;
  jws_iat : Z;
  jws_exp : Z
}.

(** jsonwebtoken's compact serialisation, idealised: [seal] is the signed
    string of a token content, [unseal] reads a string back, and fails on
    every string that is not a well-formed signed token.  A string
    determines the key that signed it (signatures cannot be forged), and
    no signed token is the empty string. *)
Class JwtCodec := {
  seal : Jws -> string;
  unseal : string -> option Jws;
  unseal_seal : forall j, unseal (seal j) = Some j;
  seal_nonempty : forall j, seal j <> ""
}.

(** bcrypt: [bcrypt_hash password rounds salt] is the digest ([salt] is the
    randomness the library draws), [bcrypt_compare password digest] its
    verification. *)
Class Bcrypt := {
  bcrypt_hash : string -> N -> string -> string;
  bcrypt_compare : string -> string -> bool
}.

(** zod's test behind [z.string().email(...)]. *)
Class ZodEmail := { isEmail : string -> bool }.

(** ** Configuration and environment *)

(** [config.jwt] of [config/env.ts].  [expiresIn] is the configured
    duration ("7d" by default) in seconds, as the library reads it. *)
Record JwtConfig := { secret : string; expiresIn : Z }.

(** What a call draws from its environment: bcrypt's salt, the id the
    store generates for a new row, the store's clock and the process
    clock (seconds since the epoch). *)
Record Ambient := {
  amb_salt : string;
  amb_uuid : string;
  amb_dbtime : Z;
  amb_clock : Z
}.

(** The decoded payload, [JwtPayload] of [auth.ts] with the library's two
    registered claims. *)
Record JwtPayload := {
  userId : string;
  payload_email : string;
  iat : Z;
  exp : Z
}.

Section Jwt.
Context `{JwtCodec}.

(** [jwt.sign({ userId, email }, secret, { expiresIn })] at time [now]. *)
Definition jwt_sign (uid mail key : string) (duration now : Z) : string :=
  seal {| jws_key := key; jws_userId := uid; jws_email := mail;
          jws_iat := now; jws_exp := now + duration |}.

(** [jwt.verify(token, secret)] at time [now]: structure, then signature,
    then expiry ([now >= exp] is expired), as the library orders them. *)
Definition jwt_verify (token key : string) (now : Z) : Result JwtPayload :=
  if String.eqb token "" then Throw (JsonWebTokenError "jwt must be provided")
  else
    match unseal token with
    | None => Throw (JsonWebTokenError "jwt malformed")
    | Some j =>
        if negb (String.eqb (jws_key j) key)
        then Throw (JsonWebTokenError "invalid signature")
        else if jws_exp j <=? now
        then Throw (TokenExpiredError "jwt expired" (jws_exp j))
        else Ok {| userId := jws_userId j; payload_email := jws_email j;
                   iat := jws_iat j; exp := jws_exp j |}
    end.

End Jwt.

(** ** The users table *)

(** Modelled from the spec: the Prisma schema of the users table is not
    among the sources.  A row has the columns the service's queries name;
    the names and [phone] are nullable, [createdAt] is a timestamp. *)
Record User := {
  id : string;
  email : string;
  password : string;
  firstName : option string;
  lastName : option string;
  phone : option string;
  createdAt : Z
}.

(** The table: its rows, oldest first.  [id] and [email] each carry a
    uniqueness constraint. *)
Definition Store := list User.

(** [prisma.user.findUnique({ where: { email } })] *)
Definition findUnique_email (db : Store) (mail : string) : option User :=
  List.find (fun u => String.eqb (email u) mail) db.

(** [prisma.user.findUnique({ where: { id } })] *)
Definition findUnique_id (db : Store) (uid : string) : option User :=
  List.find (fun u => String.eqb (id u) uid) db.

(** The value of a column of a row, [None] for a name that is no column. *)
Definition column (u : User) (k : string) : option JsValue :=
  if String.eqb k "id" then Some (JStr (id u))
  else if String.eqb k "email" then Some (JStr (email u))
  else if String.eqb k "password" then Some (JStr (password u))
  else if String.eqb k "firstName" then Some (nullable (firstName u))
  else if String.eqb k "lastName" then Some (nullable (lastName u))
  else if String.eqb k "phone" then Some (nullable (phone u))
  else if String.eqb k "createdAt" then Some (JDate (createdAt u))
  else None.

(** Prisma's [select: { k1: true, ... }]: the object holding the chosen
    columns of a row and nothing else. *)
Definition select (keys : list string) (u : User) : gmap string JsValue :=
  list_to_map (omap (fun k => pair k <$> column u k) keys).

(** The four columns [register] selects and [login] copies, as an object. *)
Definition publicUser (u : User) : gmap string JsValue :=
  {[ "id" := JStr (id u); "email" := JStr (email u);
     "firstName" := nullable (firstName u); "lastName" := nullable (lastName u) ]}.

(** The six columns [getProfile] selects, as an object. *)
Definition profile (u : User) : gmap string JsValue :=
  {[ "id" := JStr (id u); "email" := JStr (email u);
     "firstName" := nullable (firstName u); "lastName" := nullable (lastName u);
     "phone" := nullable (phone u); "createdAt" := JDate (createdAt u) ]}.

(** The fields of [data] in [prisma.user.create]. *)
Record CreateData := {
  cd_email : string;
  cd_password : string;
  cd_firstName : option string;
  cd_lastName : option string
}.

(** The row the store makes of [data]: it supplies [id] and [createdAt]
    and leaves [phone] null. *)
Definition new_row (amb : Ambient) (data : CreateData) : User :=
  {| id := amb_uuid amb; email := cd_email data; password := cd_password data;
     firstName := cd_firstName data; lastName := cd_lastName data;
     phone := None; createdAt := amb_dbtime amb |}.

(** [prisma.user.create({ data })]: the new row is appended, unless it
    breaks a uniqueness constraint, which the store refuses with error
    P2002 naming the column. *)
Definition create (db : Store) (amb : Ambient) (data : CreateData)
  : Store * Result User :=
  let row := new_row amb data in
  match findUnique_email db (cd_email data), findUnique_id db (amb_uuid amb) with
  | Some _, _ => (db, Throw (PrismaClientKnownRequestError "P2002" (Some ["email"])))
  | None, Some _ => (db, Throw (PrismaClientKnownRequestError "P2002" (Some ["id"])))
  | None, None => ((db ++ [row])%list, Ok row)
  end.

(** ** Auth service ([auth.service.ts]) *)

(** [RegisterInput] and [LoginInput] of [auth.types.ts]. *)
Record RegisterInput := {
  reg_email : string;
  reg_password : string;
  reg_firstName : option string;
  reg_lastName : option string
}.

Record LoginInput := { login_email : string; login_password : string }.

(** [AuthResponse]: the user object as the service builds it, and the token. *)
Record AuthResponse := { resp_user : gmap string JsValue; token : string }.

Section Service.
Context `{JwtCodec} `{Bcrypt}.
Variable cfg : JwtConfig.

(** [AuthService.generateToken] *)
Definition generateToken (now : Z) (uid mail : string) : string :=
  jwt_sign uid mail (secret cfg) (expiresIn cfg) now.

(** [AuthService.register] up to its first [await]: the existence check. *)
Definition register_check (db : Store) (data : RegisterInput) : Result unit :=
  match findUnique_email db (reg_email data) with
  | Some _ => Throw (ConflictError "User with this email already exists")
  | None => Ok ()
  end.

(** [AuthService.register] after the existence check: hash, insert with the
    four selected columns returned, token. *)
Definition register_insert (db : Store) (amb : Ambient) (data : RegisterInput)
  : Store * Result AuthResponse :=
  let hashedPassword := bcrypt_hash (reg_password data) 12%N (amb_salt amb) in
  let '(db', created) :=
    create db amb {| cd_email := reg_email data; cd_password := hashedPassword;
                     cd_firstName := reg_firstName data;
                     cd_lastName := reg_lastName data |} in
  (db', row ← created;
        let user := select ["id"; "email"; "firstName"; "lastName"] row in
        let token := generateToken (amb_clock amb) (id row) (email row) in
        Ok {| resp_user := user; token := token |}).

(** The [data] that [register] passes to [create]. *)
Definition registration (amb : Ambient) (data : RegisterInput) : CreateData :=
  {| cd_email := reg_email data;
     cd_password := bcrypt_hash (reg_password data) 12%N (amb_salt amb);
     cd_firstName := reg_firstName data; cd_lastName := reg_lastName data |}.

(** [AuthService.register] against a table nobody else writes to. *)
Definition register (db : Store) (amb : Ambient) (data : RegisterInput)
  : Store * Result AuthResponse :=
  match register_check db data with
  | Throw err => (db, Throw err)
  | Ok _ => register_insert db amb data
  end.

(** [AuthService.register] when another writer commits between the
    existence check and the insert: the check reads [db], the insert
    meets [db_later]. *)
Definition register_raced (db db_later : Store) (amb : Ambient)
  (data : RegisterInput) : Store * Result AuthResponse :=
  match register_check db data with
  | Throw err => (db_later, Throw err)
  | Ok _ => register_insert db_later amb data
  end.

(** [AuthService.login] *)
Definition login (db : Store) (amb : Ambient) (data : LoginInput)
  : Result AuthResponse :=
  match findUnique_email db (login_email data) with
  | None => Throw (UnauthorizedError "Invalid credentials")
  | Some user =>
      let isPasswordValid := bcrypt_compare (login_password data) (password user) in
      if negb isPasswordValid then Throw (UnauthorizedError "Invalid credentials")
      else
        let token := generateToken (amb_clock amb) (id user) (email user) in
        Ok {| resp_user :=
                {[ "id" := JStr (id user); "email" := JStr (email user);
                   "firstName" := nullable (firstName user);
                   "lastName" := nullable (lastName user) ]};
              token := token |}
  end.

(** [AuthService.getProfile] *)
Definition getProfile (db : Store) (uid : string)
  : Result (gmap string JsValue) :=
  match findUnique_id db uid with
  | None => Throw (UnauthorizedError "User not found")
  | Some user =>
      Ok (select ["id"; "email"; "firstName"; "lastName"; "phone"; "createdAt"] user)
  end.

End Service.

(** ** Identity middleware ([auth.ts]) *)

(** [req.user] *)
Record Identity := { ident_id : string; ident_email : string }.

(** The parts of an Express request this code reads or writes. *)
Record AuthRequest := {
  authorization : option string;
  user : option Identity;
  body : JsValue;
  query : JsValue;
  params : JsValue
}.

(** [req.user = identity] *)
Definition attach (req : AuthRequest) (identity : Identity) : AuthRequest :=
  {| authorization := authorization req; user := Some identity;
     body := body req; query := query req; params := params req |}.

(** How a middleware hands over: [next()] with the request as it now is,
    or [next(err)]. *)
Inductive Outcome : Type :=
| Next (req : AuthRequest)
| NextErr (err : JsError).

(** [authHeader && authHeader.startsWith("Bearer ")] *)
Definition isBearer (authHeader : option string) : bool :=
  match authHeader with
  | Some h => truthy authHeader && startsWith h "Bearer "
  | None => false
  end.

(** [authHeader.substring(7)] *)
Definition bearerToken (authHeader : option string) : string :=
  substring 7 (default "" authHeader).

Section Middleware.
Context `{JwtCodec}.
Variable cfg : JwtConfig.

(** The [try] block of [authenticate], up to [next()]. *)
Definition authenticate_try (db : Store) (now : Z) (req : AuthRequest)
  : Result AuthRequest :=
  let authHeader := authorization req in
  if negb (isBearer authHeader) then Throw (UnauthorizedError "No token provided")
  else
    let token := bearerToken authHeader in
    decoded ← jwt_verify token (secret cfg) now;
    match findUnique_id db (userId decoded) with
    | None => Throw (UnauthorizedError "User not found")
    | Some u => Ok (attach req {| ident_id := id u; ident_email := email u |})
    end.

(** [authenticate]: the [try] block and its [catch]. *)
Definition authenticate (db : Store) (now : Z) (req : AuthRequest) : Outcome :=
  match authenticate_try db now req with
  | Ok req' => Next req'
  | Throw error =>
      if instanceof_JsonWebTokenError error
      then NextErr (UnauthorizedError "Invalid token")
      else if instanceof_TokenExpiredError error
      then NextErr (UnauthorizedError "Token expired")
      else NextErr error
  end.

(** The [try] block of [optionalAuth], up to [next()]. *)
Definition optionalAuth_try (db : Store) (now : Z) (req : AuthRequest)
  : Result AuthRequest :=
  let authHeader := authorization req in
  if isBearer authHeader then
    let token := bearerToken authHeader in
    decoded ← jwt_verify token (secret cfg) now;
    match findUnique_id db (userId decoded) with
    | Some u => Ok (attach req {| ident_id := id u; ident_email := email u |})
    | None => Ok req
    end
  else Ok req.

(** [optionalAuth]: the [catch] calls [next()] whatever was thrown. *)
Definition optionalAuth (db : Store) (now : Z) (req : AuthRequest) : Outcome :=
  match optionalAuth_try db now req with
  | Ok req' => Next req'
  | Throw _ => Next req
  end.

End Middleware.

(** ** Validation gate ([auth.types.ts], [validate.ts]) *)

(** One refinement of [z.string()]: [.email(m)], [.min(n, m)] or
    [.regex(re, m)], as the test it applies and its message. *)
Record StringCheck := { check_test : string -> bool; check_message : string }.

(** The zod schemas this code base builds. *)
Inductive Schema : Type :=
| ZString (checks : list StringCheck)
| ZOptional (inner : Schema)
| ZObject (shape : list (string * Schema)).

(** zod's name for the type of a value, as its messages print it. *)
Definition parsedType (v : JsValue) : string :=
  match v with
  | JUndefined => "undefined"
  | JNull => "null"
  | JBool _ => "boolean"
  | JNum _ => "number"
  | JStr _ => "string"
  | JDate _ => "date"
  | JArr _ => "array"
  | JObj _ => "object"
  end.

(** zod's issue for a value of the wrong type. *)
Definition invalid_type (expected : string) (path : list string) (v : JsValue)
  : ZodIssue :=
  {| issue_path := path;
     issue_message :=
       match v with
       | JUndefined => "Required"
       | _ => "Expected " +:+ expected +:+ ", received " +:+ parsedType v
       end |}.

(** The issues of a string against its checks: every check runs, in the
    order the schema chains them. *)
Definition check_string (checks : list StringCheck) (path : list string)
  (str : string) : list ZodIssue :=
  flat_map (fun c => if check_test c str then []
                     else [{| issue_path := path; issue_message := check_message c |}])
           checks.

(** The issues zod finds in [v] against a schema, in the order it finds
    them: an object's properties in the order of its shape, each under the
    path extended with the property name; unknown properties are ignored. *)
Fixpoint issues_of (schema : Schema) (path : list string) (v : JsValue)
  : list ZodIssue :=
  match schema with
  | ZString checks =>
      match v with
      | JStr str => check_string checks path str
      | _ => [invalid_type "string" path v]
      end
  | ZOptional inner =>
      match v with
      | JUndefined => []
      | _ => issues_of inner path v
      end
  | ZObject shape =>
      match v with
      | JObj _ =>
          flat_map (fun entry : string * Schema =>
                      let (k, sub) := entry in
                      issues_of sub (path ++ [k])%list (prop v k))
                   shape
      | _ => [invalid_type "object" path v]
      end
  end.

(** [schema.parseAsync(v)]: throws a [ZodError] holding the issues when
    there is one. *)
Definition parseAsync (schema : Schema) (v : JsValue) : Result unit :=
  match issues_of schema [] v with
  | [] => Ok ()
  | issues => Throw (ZodError issues)
  end.

(** [/[lo-hi]/.test(s)] for a character range. *)
Definition hasCharIn (lo hi : nat) (s : string) : bool :=
  existsb (fun c => let n := Ascii.nat_of_ascii c in (lo <=? n)%nat && (n <=? hi)%nat)
          (String.list_ascii_of_string s).

(** [.min(n, message)] *)
Definition string_min (n : nat) (message : string) : StringCheck :=
  {| check_test := fun s => (n <=? String.length s)%nat; check_message := message |}.

(** [.regex(/[lo-hi]/, message)] *)
Definition regex_range (lo hi : nat) (message : string) : StringCheck :=
  {| check_test := hasCharIn lo hi; check_message := message |}.

Section Schemas.
Context `{ZodEmail}.

(** [.email(message)] *)
Definition email_check (message : string) : StringCheck :=
  {| check_test := isEmail; check_message := message |}.

Definition RegisterSchema : Schema :=
  ZObject
    [("body",
      ZObject
        [("email", ZString [email_check "Invalid email address"]);
         ("password",
          ZString
            [string_min 8 "Password must be at least 8 characters";
             regex_range 65 90 "Password must contain at least one uppercase letter";
             regex_range 97 122 "Password must contain at least one lowercase letter";
             regex_range 48 57 "Password must contain at least one number"]);
         ("firstName", ZOptional (ZString [string_min 1 "First name is required"]));
         ("lastName", ZOptional (ZString []))])].

Definition LoginSchema : Schema :=
  ZObject
    [("body",
      ZObject
        [("email", ZString [email_check "Invalid email address"]);
         ("password", ZString [string_min 1 "Password is required"])])].

End Schemas.

(** [{ body: req.body, query: req.query, params: req.params }] *)
Definition schemaInput (req : AuthRequest) : JsValue :=
  JObj [("body", body req); ("query", query req); ("params", params req)].

(** [validate(schema)] *)
Definition validate (schema : Schema) (req : AuthRequest) : Outcome :=
  match parseAsync schema (schemaInput req) with
  | Ok _ => Next req
  | Throw error =>
      if instanceof_ZodError error then NextErr error
      else NextErr (ValidationError "Validation failed")
  end.

(** ** Error translator ([errorHandler.ts]) *)

(** The process as the handler sees it: [process.env.NODE_ENV], and the
    [stack] property the runtime gave each error object. *)
Record ProcessEnv := {
  NODE_ENV : option string;
  stack_of : JsError -> option string
}.

(** An entry of the [errors] array. *)
Record FieldError := { field : string; field_message : string }.

(** What [res.status(...).json(...)] sends; an absent property is [None]. *)
Record ErrorResponse := {
  res_status : Z;
  res_success : bool;
  res_message : string;
  res_errors : option (list FieldError);
  res_stack : option string
}.

(** The template literal's rendering of [err.meta?.target]. *)
Definition render_target (target : option (list string)) : string :=
  match target with
  | None => "undefined"
  | Some columns => join "," columns
  end.

(** [handlePrismaError] *)
Definition handlePrismaError (code : string) (target : option (list string))
  : string :=
  if String.eqb code "P2002" then "Duplicate field value: " +:+ render_target target
  else if String.eqb code "P2014" then "Invalid ID"
  else if String.eqb code "P2003" then "Invalid input data"
  else if String.eqb code "P2025" then "Record not found"
  else "Database error occurred".

(** [err.message || "Internal server error"] *)
Definition message_or_default (message : string) : string :=
  if String.eqb message "" then "Internal server error" else message.

(** The entry of the [errors] array for an issue. *)
Definition field_error (e : ZodIssue) : FieldError :=
  {| field := join "." (issue_path e); field_message := issue_message e |}.

(** The branch of [errorHandler] an error takes: status, message and
    [errors].  The logger call between this and the response writes to the
    log only. *)
Definition translate (err : JsError) : Z * string * option (list FieldError) :=
  match err with
  | AppError statusCode message => (statusCode, message, None)
  | PrismaClientKnownRequestError code target =>
      (400, handlePrismaError code target, None)
  | ZodError issues => (422, "Validation failed", Some (map field_error issues))
  | _ =>
      if String.eqb (error_name err) "JsonWebTokenError"
      then (401, "Invalid token", None)
      else if String.eqb (error_name err) "TokenExpiredError"
      then (401, "Token expired", None)
      else (500, message_or_default (error_message err), None)
  end.

(** [errorHandler] *)
Definition errorHandler (env : ProcessEnv) (err : JsError) : ErrorResponse :=
  let '(statusCode, message, errors) := translate err in
  {| res_status := statusCode;
     res_success := false;
     res_message := message;
     res_errors := errors;
     res_stack :=
       match NODE_ENV env with
       | Some mode => if String.eqb mode "development" then stack_of env err else None
       | None => None
       end |}.

(** The errors the error translator classifies nowhere: not an [AppError],
    not a Prisma error, not a [ZodError], and named neither
    "JsonWebTokenError" nor "TokenExpiredError". *)
Definition unclassified (err : JsError) : bool :=
  negb (instanceof_AppError err)
  && negb (instanceof_PrismaClientKnownRequestError err)
  && negb (instanceof_ZodError err)
  && negb (String.eqb (error_name err) "JsonWebTokenError")
  && negb (String.eqb (error_name err) "TokenExpiredError").

(** ** The [/me] route ([auth.controller.ts], [auth.routes.ts]) *)

(** What a route sends. *)
Inductive Reply : Type :=
| ReplyData (status : Z) (data : gmap string JsValue)
| ReplyError (response : ErrorResponse).

Section Routes.
Context `{JwtCodec} `{Bcrypt}.
Variable cfg : JwtConfig.
Variable env : ProcessEnv.

(** [AuthController.getMe], up to its response. *)
Definition getMe (db : Store) (req : AuthRequest) : Result (gmap string JsValue) :=
  match user req with
  | None => Throw (OtherError "Error" "User not authenticated")
  | Some identity => getProfile db (ident_id identity)
  end.

(** [router.get("/me", authenticate, getMe)] under the application's
    [errorHandler]. *)
Definition GET_me (db : Store) (now : Z) (req : AuthRequest) : Reply :=
  match authenticate cfg db now req with
  | NextErr err => ReplyError (errorHandler env err)
  | Next req' =>
      match getMe db req' with
      | Ok data => ReplyData 200 data
      | Throw err => ReplyError (errorHandler env err)
      end
  end.

End Routes.

(** ** The [/register] and [/login] routes ([auth.controller.ts], [auth.routes.ts])

    Strings are sequences of code units below 256, so [String.length] is
    the [length] the source reads. *)

(** A value read at the TypeScript type [string]; [None] when the value is
    of another type, where the cast of the source is unsound and what
    follows is not modelled. *)
Definition asString (v : JsValue) : option string :=
  match v with
  | JStr s => Some s
  | _ => None
  end.

(** A value read at the type [string | undefined]. *)
Definition asOptionalString (v : JsValue) : option (option string) :=
  match v with
  | JUndefined => Some None
  | JStr s => Some (Some s)
  | _ => None
  end.

(** [const data: RegisterInput = req.body] *)
Definition RegisterInput_of (b : JsValue) : option RegisterInput :=
  mail ← asString (prop b "email");
  pw ← asString (prop b "password");
  first ← asOptionalString (prop b "firstName");
  last ← asOptionalString (prop b "lastName");
  Some {| reg_email := mail; reg_password := pw;
          reg_firstName := first; reg_lastName := last |}.

(** [const data: LoginInput = req.body] *)
Definition LoginInput_of (b : JsValue) : option LoginInput :=
  mail ← asString (prop b "email");
  pw ← asString (prop b "password");
  Some {| login_email := mail; login_password := pw |}.

(** What the two routes send. *)
Inductive AuthReply : Type :=
| AuthReplyOk (status : Z) (message : string) (data : AuthResponse)
| AuthReplyError (response : ErrorResponse).


Section AuthRoutes.
Context `{JwtCodec} `{Bcrypt} `{ZodEmail}.
Variable cfg : JwtConfig.
Variable env : ProcessEnv.

(** [AuthController.register], up to its response or [next(error)]. *)
Definition AuthController_register (db : Store) (amb : Ambient) (req : AuthRequest)
  : option (Store * Result AuthResponse) :=
  data ← RegisterInput_of (body req);
  Some (register cfg db amb data).

(** [AuthController.login], up to its response or [next(error)]. *)
Definition AuthController_login (db : Store) (amb : Ambient) (req : AuthRequest)
  : option (Result AuthResponse) :=
  data ← LoginInput_of (body req);
  Some (login cfg db amb data).

(** [router.post("/register", validate(RegisterSchema), register)] under
    the application's [errorHandler]. *)
Definition POST_register (db : Store) (amb : Ambient) (req : AuthRequest)
  : option (Store * AuthReply) :=
  match validate RegisterSchema req with
  | NextErr err => Some (db, AuthReplyError (errorHandler env err))
  | Next req' =>
      '(db', result) ← AuthController_register db amb req';
      Some (db',
            match result with
            | Ok r => AuthReplyOk 201 "User registered successfully" r
            | Throw err => AuthReplyError (errorHandler env err)
            end)
  end.

(** [router.post("/login", validate(LoginSchema), login)] under the
    application's [errorHandler]. *)
Definition POST_login (db : Store) (amb : Ambient) (req : AuthRequest)
  : option AuthReply :=
  match validate LoginSchema req with
  | NextErr err => Some (AuthReplyError (errorHandler env err))
  | Next req' =>
      result ← AuthController_login db amb req';
      Some (match result with
            | Ok r => AuthReplyOk 200 "Login successful" r
            | Throw err => AuthReplyError (errorHandler env err)
            end)
  end.

End AuthRoutes.

(** ** The same code when a collaborator fails

    Above, a lookup is read off a table and [jwt.sign] always returns.  In
    the source every awaited call of the store can also reject, and
    [jwt.sign] throws on a configuration it cannot use, such as a duration
    it cannot read.  Here the answer of each such call is an argument:
    [find k] is the answer of [prisma.user.findUnique] for the key [k],
    [insert db data] is what [prisma.user.create] makes of the table and
    answers, and [sign uid mail] is the answer of
    [jwt.sign({ userId, email }, ...)]. *)

Section Given.
Context `{JwtCodec} `{Bcrypt} `{ZodEmail}.
Variable cfg : JwtConfig.
Variable env : ProcessEnv.

(** [authenticate] *)
Definition authenticate_given (find : string -> Result (option User))
  (now : Z) (req : AuthRequest) : Outcome :=
  let attempt : Result AuthRequest :=
    let authHeader := authorization req in
    if negb (isBearer authHeader) then Throw (UnauthorizedError "No token provided")
    else
      let token := bearerToken authHeader in
      decoded ← jwt_verify token (secret cfg) now;
      found ← find (userId decoded);
      match found with
      | None => Throw (UnauthorizedError "User not found")
      | Some u => Ok (attach req {| ident_id := id u; ident_email := email u |})
      end in
  match attempt with
  | Ok req' => Next req'
  | Throw error =>
      if instanceof_JsonWebTokenError error
      then NextErr (UnauthorizedError "Invalid token")
      else if instanceof_TokenExpiredError error
      then NextErr (UnauthorizedError "Token expired")
      else NextErr error
  end.

(** [AuthService.getProfile] *)
Definition getProfile_given (find : string -> Result (option User)) (uid : string)
  : Result (gmap string JsValue) :=
  found ← find uid;
  match found with
  | None => Throw (UnauthorizedError "User not found")
  | Some u =>
      Ok (select ["id"; "email"; "firstName"; "lastName"; "phone"; "createdAt"] u)
  end.

(** [AuthController.getMe], up to its response. *)
Definition getMe_given (find : string -> Result (option User)) (req : AuthRequest)
  : Result (gmap string JsValue) :=
  match user req with
  | None => Throw (OtherError "Error" "User not authenticated")
  | Some identity => getProfile_given find (ident_id identity)
  end.

(** The [/me] route; [find_auth] answers the middleware's lookup and
    [find_profile] the service's. *)
Definition GET_me_given (find_auth find_profile : string -> Result (option User))
  (now : Z) (req : AuthRequest) : Reply :=
  match authenticate_given find_auth now req with
  | NextErr err => ReplyError (errorHandler env err)
  | Next req' =>
      match getMe_given find_profile req' with
      | Ok data => ReplyData 200 data
      | Throw err => ReplyError (errorHandler env err)
      end
  end.

(** [AuthService.login] *)
Definition login_given (find : string -> Result (option User))
  (sign : string -> string -> Result string) (data : LoginInput)
  : Result AuthResponse :=
  found ← find (login_email data);
  match found with
  | None => Throw (UnauthorizedError "Invalid credentials")
  | Some u =>
      let isPasswordValid := bcrypt_compare (login_password data) (password u) in
      if negb isPasswordValid then Throw (UnauthorizedError "Invalid credentials")
      else
        token ← sign (id u) (email u);
        Ok {| resp_user :=
                {[ "id" := JStr (id u); "email" := JStr (email u);
                   "firstName" := nullable (firstName u);
                   "lastName" := nullable (lastName u) ]};
              token := token |}
  end.

(** [AuthService.register]; the table it returns is the one [insert] left. *)
Definition register_given (find : string -> Result (option User))
  (insert : Store -> CreateData -> Store * Result User)
  (sign : string -> string -> Result string)
  (db : Store) (amb : Ambient) (data : RegisterInput)
  : Store * Result AuthResponse :=
  match find (reg_email data) with
  | Throw err => (db, Throw err)
  | Ok (Some _) => (db, Throw (ConflictError "User with this email already exists"))
  | Ok None =>
      let hashedPassword := bcrypt_hash (reg_password data) 12%N (amb_salt amb) in
      let '(db', created) :=
        insert db {| cd_email := reg_email data; cd_password := hashedPassword;
                     cd_firstName := reg_firstName data;
                     cd_lastName := reg_lastName data |} in
      (db', row ← created;
            let user := select ["id"; "email"; "firstName"; "lastName"] row in
            token ← sign (id row) (email row);
            Ok {| resp_user := user; token := token |})
  end.



End Given.

(** ** Environment configuration ([config/env.ts]) *)

Module EnvConfig.

(** zod's test behind [z.string().url(...)]. *)
Class ZodUrl := { isUrl : string -> bool }.

(** The parsed environment, [env] of the source. *)
Record Env := {
  NODE_ENV : string;
  PORT : string;
  DATABASE_URL : string;
  JWT_SECRET : string;
  JWT_EXPIRES_IN : string;
  OPENAI_API_KEY : option string;
  ANTHROPIC_API_KEY : option string;
  EMAIL_SERVICE_API_KEY : option string;
  EMAIL_FROM : option string;
  STORAGE_BUCKET_NAME : option string;
  STORAGE_ACCESS_KEY : option string;
  STORAGE_SECRET_KEY : option string;
  CORS_ORIGIN : string;
  RATE_LIMIT_WINDOW_MS : string;
  RATE_LIMIT_MAX_REQUESTS : string
}.

(** The members of [z.enum(["development", "production", "test"])]. *)
Definition modes : list string := ["development"; "production"; "test"].

Definition issue_at (key message : string) : ZodIssue :=
  {| issue_path := [key]; issue_message := message |}.

(** [z.enum(modes).default(...)] on a variable: unset is accepted. *)
Definition enum_issues (key : string) (v : option string) : list ZodIssue :=
  match v with
  | None => []
  | Some s =>
      if existsb (String.eqb s) modes then []
      else [issue_at key
              ("Invalid enum value. Expected 'development' | 'production' | 'test', received '"
               +:+ s +:+ "'")]
  end.

(** [z.string().check(message)] on a variable: unset is "Required". *)
Definition required_issues (key : string) (test : string -> bool) (message : string)
  (v : option string) : list ZodIssue :=
  match v with
  | None => [issue_at key "Required"]
  | Some s => if test s then [] else [issue_at key message]
  end.

(** [z.string().check(message).optional()] on a variable. *)
Definition optional_issues (key : string) (test : string -> bool) (message : string)
  (v : option string) : list ZodIssue :=
  match v with
  | None => []
  | Some s => if test s then [] else [issue_at key message]
  end.

Section Parse.
Context `{ZodUrl} `{ZodEmail}.

(** The issues [envSchema] finds in [process.env], in the order of its
    shape.  The variables declared [z.string()] with a default or
    [.optional()] raise none: a variable of the environment is a string or
    unset. *)
Definition envSchema_issues (vars : gmap string string) : list ZodIssue :=
  (enum_issues "NODE_ENV" (vars !! "NODE_ENV")
   ++ required_issues "DATABASE_URL" isUrl
        "DATABASE_URL must be a valid PostgreSQL connection string"
        (vars !! "DATABASE_URL")
   ++ required_issues "JWT_SECRET" (fun s => (32 <=? String.length s)%nat)
        "JWT_SECRET must be at least 32 characters" (vars !! "JWT_SECRET")
   ++ optional_issues "EMAIL_FROM" isEmail "Invalid email" (vars !! "EMAIL_FROM"))%list.

(** The value [envSchema.parse] returns when there is no issue. *)
Definition envSchema_value (vars : gmap string string) : Env :=
  {| NODE_ENV := default "development" (vars !! "NODE_ENV");
     PORT := default "4000" (vars !! "PORT");
     DATABASE_URL := default "" (vars !! "DATABASE_URL");
     JWT_SECRET := default "" (vars !! "JWT_SECRET");
     JWT_EXPIRES_IN := default "7d" (vars !! "JWT_EXPIRES_IN");
     OPENAI_API_KEY := vars !! "OPENAI_API_KEY";
     ANTHROPIC_API_KEY := vars !! "ANTHROPIC_API_KEY";
     EMAIL_SERVICE_API_KEY := vars !! "EMAIL_SERVICE_API_KEY";
     EMAIL_FROM := vars !! "EMAIL_FROM";
     STORAGE_BUCKET_NAME := vars !! "STORAGE_BUCKET_NAME";
     STORAGE_ACCESS_KEY := vars !! "STORAGE_ACCESS_KEY";
     STORAGE_SECRET_KEY := vars !! "STORAGE_SECRET_KEY";
     CORS_ORIGIN := default "http://localhost:3000" (vars !! "CORS_ORIGIN");
     RATE_LIMIT_WINDOW_MS := default "900000" (vars !! "RATE_LIMIT_WINDOW_MS");
     RATE_LIMIT_MAX_REQUESTS := default "100" (vars !! "RATE_LIMIT_MAX_REQUESTS") |}.

(** [envSchema.parse(process.env)] *)
Definition envSchema_parse (vars : gmap string string) : Result Env :=
  match envSchema_issues vars with
  | [] => Ok (envSchema_value vars)
  | issues => Throw (ZodError issues)
  end.

(** How start-up ends: with the environment, with [process.exit(code)]
    after the issues were printed, one per line, or with another error
    thrown on. *)
Inductive Startup : Type :=
| Loaded (env : Env)
| Exited (code : Z) (printed : list ZodIssue)
| Rethrown (err : JsError).

(** [parseEnv] *)
Definition parseEnv (vars : gmap string string) : Startup :=
  match envSchema_parse vars with
  | Ok env => Loaded env
  | Throw (ZodError issues) => Exited 1 issues
  | Throw err => Rethrown err
  end.

End Parse.

(** [config.server], without [port]. *)
Record ServerConfig := {
  server_env : string;
  isDevelopment : bool;
  isProduction : bool;
  isTest : bool
}.

(** [config], without the three numbers it reads with [parseInt]
    ([server.port] and [rateLimit]). *)
Record Config := {
  server : ServerConfig;
  database_url : string;
  jwt_secret : string;
  jwt_expiresIn : string;
  ai_openaiKey : option string;
  ai_anthropicKey : option string;
  email_apiKey : option string;
  email_from : option string;
  storage_bucketName : option string;
  storage_accessKey : option string;
  storage_secretKey : option string;
  cors_origin : string
}.

(** [config] *)
Definition config (env : Env) : Config :=
  {| server :=
       {| server_env := NODE_ENV env;
          isDevelopment := String.eqb (NODE_ENV env) "development";
          isProduction := String.eqb (NODE_ENV env) "production";
          isTest := String.eqb (NODE_ENV env) "test" |};
     database_url := DATABASE_URL env;
     jwt_secret := JWT_SECRET env;
     jwt_expiresIn := JWT_EXPIRES_IN env;
     ai_openaiKey := OPENAI_API_KEY env;
     ai_anthropicKey := ANTHROPIC_API_KEY env;
     email_apiKey := EMAIL_SERVICE_API_KEY env;
     email_from := EMAIL_FROM env;
     storage_bucketName := STORAGE_BUCKET_NAME env;
     storage_accessKey := STORAGE_ACCESS_KEY env;
     storage_secretKey := STORAGE_SECRET_KEY env;
     cors_origin := CORS_ORIGIN env |}.

End EnvConfig.

(** ** Reference instances of the library contracts

    One implementation of each contract, small enough to run: the
    examples below evaluate the embedding on them. *)

Module Reference.

(** A positive number as a string of binary digits, lowest first. *)
Fixpoint pos_to_bits (p : positive) : string :=
  match p with
  | xH => ""
  | xO q => String "0"%char (pos_to_bits q)
  | xI q => String "1"%char (pos_to_bits q)
  end.

Fixpoint bits_to_pos (s : string) : option positive :=
  match s with
  | "" => Some xH
  | String c rest =>
      q ← bits_to_pos rest;
      if Ascii.eqb c "0"%char then Some (xO q)
      else if Ascii.eqb c "1"%char then Some (xI q)
      else None
  end.

Definition to_tuple (j : Jws) : string * string * string * Z * Z :=
  (jws_key j, jws_userId j, jws_email j, jws_iat j, jws_exp j).

Definition of_tuple (t : string * string * string * Z * Z) : Jws :=
  let '(k, u, e, i, x) := t in
  {| jws_key := k; jws_userId := u; jws_email := e; jws_iat := i; jws_exp := x |}.

Definition ref_seal (j : Jws) : string :=
  String "J"%char (pos_to_bits (encode (to_tuple j))).

Definition ref_unseal (s : string) : option Jws :=
  match s with
  | String c rest =>
      if Ascii.eqb c "J"%char then of_tuple <$> (bits_to_pos rest ≫= decode) else None
  | "" => None
  end.

Lemma bits_to_pos_to_bits (p : positive) : bits_to_pos (pos_to_bits p) = Some p.
Proof. induction p as [q IH | q IH |]; simpl; rewrite ?IH; reflexivity. Qed.

Lemma ref_unseal_seal (j : Jws) : ref_unseal (ref_seal j) = Some j.
Proof.
  unfold ref_unseal, ref_seal. simpl.
  rewrite bits_to_pos_to_bits. simpl. rewrite decode_encode.
  destruct j; reflexivity.
Qed.

Lemma ref_seal_nonempty (j : Jws) : ref_seal j <> "".
Proof. discriminate. Qed.

#[global] Instance codec : JwtCodec :=
  {| seal := ref_seal; unseal := ref_unseal;
     unseal_seal := ref_unseal_seal; seal_nonempty := ref_seal_nonempty |}.

#[global] Instance bcrypt : Bcrypt :=
  {| bcrypt_hash := fun pw rounds salt => "$2b$12$" +:+ pw;
     bcrypt_compare := fun pw digest => String.eqb digest ("$2b$12$" +:+ pw) |}.

#[global] Instance zod : ZodEmail :=
  {| isEmail := fun s => existsb (Ascii.eqb "@"%char) (String.list_ascii_of_string s) |}.

Definition cfg : JwtConfig :=
  {| secret := "0123456789abcdef0123456789abcdef"; expiresIn := 604800 |}.

Definition alice : User :=
  {| id := "u1"; email := "alice@example.com"; password := "$2b$12$Secret123";
     firstName := Some "Alice"; lastName := None; phone := None;
     createdAt := 1700000000000 |}.

Definition production : ProcessEnv :=
  {| NODE_ENV := Some "production"; stack_of := fun _ => Some "Error: at handler (app.js:1:1)" |}.

Definition development : ProcessEnv :=
  {| NODE_ENV := Some "development"; stack_of := fun _ => Some "Error: at handler (app.js:1:1)" |}.

Definition amb : Ambient :=
  {| amb_salt := "s"; amb_uuid := "u2"; amb_dbtime := 1700000500000;
     amb_clock := 1700000500 |}.

Definition request (header : option string) : AuthRequest :=
  {| authorization := header; user := None;
     body := JUndefined; query := JObj []; params := JObj [] |}.

End Reference.

(** ** Example inputs *)

Module Examples.

Definition bob : RegisterInput :=
  {| reg_email := "bob@example.com"; reg_password := "Passw0rd";
     reg_firstName := Some "Bob"; reg_lastName := None |}.

(** A second registration under alice's address. *)
Definition alice_again : RegisterInput :=
  {| reg_email := "alice@example.com"; reg_password := "Passw0rd";
     reg_firstName := None; reg_lastName := None |}.

Definition alice_login (pw : string) : LoginInput :=
  {| login_email := "alice@example.com"; login_password := pw |}.

Definition nobody_login : LoginInput :=
  {| login_email := "nobody@example.com"; login_password := "Secret123" |}.

End Examples.

Module GateExamples.

(** The payload [{ email: "not-an-email", password: "short" }]. *)
Definition bad_body : JsValue :=
  JObj [("email", JStr "not-an-email"); ("password", JStr "short")].

Definition bad_request : AuthRequest :=
  {| authorization := None; user := None;
     body := bad_body; query := JObj []; params := JObj [] |}.

(** What zod finds in it against [RegisterSchema], as long as the email
    test refuses "not-an-email". *)
Definition bad_issues : list ZodIssue :=
  [ {| issue_path := ["body"; "email"]; issue_message := "Invalid email address" |};
    {| issue_path := ["body"; "password"];
       issue_message := "Password must be at least 8 characters" |};
    {| issue_path := ["body"; "password"];
       issue_message := "Password must contain at least one uppercase letter" |};
    {| issue_path := ["body"; "password"];
       issue_message := "Password must contain at least one number" |} ].

(** The [errors] array sent for them. *)
Definition bad_errors : list FieldError :=
  [ {| field := "body.email"; field_message := "Invalid email address" |};
    {| field := "body.password";
       field_message := "Password must be at least 8 characters" |};
    {| field := "body.password";
       field_message := "Password must contain at least one uppercase letter" |};
    {| field := "body.password";
       field_message := "Password must contain at least one number" |} ].

(** An error no branch of the translator recognises. *)
Definition refused_connection : JsError :=
  OtherError "Error" "connect ECONNREFUSED 10.0.0.5:5432".

End GateExamples.

Module MoreExamples.

(** A test for URLs that knows one scheme. *)
#[global] Instance url : EnvConfig.ZodUrl :=
  {| EnvConfig.isUrl := String.prefix "postgresql://" |}.

(** The body [{ email: "a@b.com", password: "Test1234" }]. *)
Definition carol_body : JsValue :=
  JObj [("email", JStr "a@b.com"); ("password", JStr "Test1234")].

Definition carol : RegisterInput :=
  {| reg_email := "a@b.com"; reg_password := "Test1234";
     reg_firstName := None; reg_lastName := None |}.

Definition carol_login : LoginInput :=
  {| login_email := "a@b.com"; login_password := "Test1234" |}.

Definition post (b : JsValue) : AuthRequest :=
  {| authorization := None; user := None; body := b; query := JObj []; params := JObj [] |}.

(** A second configuration, with another secret. *)
Definition other_cfg : JwtConfig :=
  {| secret := "ffffffffffffffffffffffffffffffff"; expiresIn := 604800 |}.

(** Bob's row, the table and the response once [Examples.bob] registered
    next to alice. *)
Definition bob_row : User :=
  new_row Reference.amb (registration Reference.amb Examples.bob).

Definition with_bob : Store := [Reference.alice; bob_row].

Definition bob_response : AuthResponse :=
  {| resp_user := publicUser bob_row;
     token := generateToken Reference.cfg (amb_clock Reference.amb)
                            "u2" "bob@example.com" |}.

Definition bob_login : LoginInput :=
  {| login_email := "bob@example.com"; login_password := "Passw0rd" |}.

(** Carol's row and response once [carol_body] was posted to [/register]
    next to alice. *)
Definition carol_row : User :=
  new_row Reference.amb (registration Reference.amb carol).

Definition carol_response : AuthResponse :=
  {| resp_user := publicUser carol_row;
     token := generateToken Reference.cfg (amb_clock Reference.amb) "u2" "a@b.com" |}.

(** The error of a store that cannot be reached, and a lookup that
    rejects with it. *)
Definition unreachable : JsError :=
  OtherError "PrismaClientInitializationError" "Can't reach database server".

Definition find_unreachable (key : string) : Result (option User) :=
  Throw unreachable.

(** An error as [jwt.sign] throws it on a duration it cannot read (the
    message without its quotation marks), and a signer that throws it. *)
Definition unreadable_duration : JsError :=
  OtherError "Error"
    "expiresIn should be a number of seconds or string representing a timespan".

Definition sign_unreadable (uid mail : string) : Result string :=
  Throw unreadable_duration.

(** The least environment [parseEnv] accepts. *)
Definition minimal_env : gmap string string :=
  {[ "DATABASE_URL" := "postgresql://localhost:5432/jobs";
     "JWT_SECRET" := "0123456789abcdef0123456789abcdef" ]}.

End MoreExamples.

(** * Properties *)

(** ** Reading the header *)

Lemma isBearer_prefixed (t : string) : isBearer (Some ("Bearer " +:+ t)) = true.
Proof. unfold isBearer, startsWith. simpl. destruct t; reflexivity. Qed.

Lemma bearerToken_prefixed (t : string) : bearerToken (Some ("Bearer " +:+ t)) = t.
Proof. reflexivity. Qed.

Lemma isBearer_absent : isBearer None = false.
Proof. reflexivity. Qed.

Lemma isBearer_other_scheme (h : string) :
  startsWith h "Bearer " = false -> isBearer (Some h) = false.
Proof. intros Hp. unfold isBearer. rewrite Hp. apply andb_false_r. Qed.

(** ** The token codec *)

Section CodecFacts.
Context `{JwtCodec}.

Lemma eqb_seal_empty (j : Jws) : String.eqb (seal j) "" = false.
Proof. apply String.eqb_neq, seal_nonempty. Qed.

(** What [jwt_verify] answers on a token this codec sealed. *)
Lemma jwt_verify_seal (j : Jws) (key : string) (now : Z) :
  jwt_verify (seal j) key now =
    if negb (String.eqb (jws_key j) key)
    then Throw (JsonWebTokenError "invalid signature")
    else if jws_exp j <=? now
    then Throw (TokenExpiredError "jwt expired" (jws_exp j))
    else Ok {| userId := jws_userId j; payload_email := jws_email j;
               iat := jws_iat j; exp := jws_exp j |}.
Proof. unfold jwt_verify. rewrite eqb_seal_empty, unseal_seal. reflexivity. Qed.

(** Whatever [jwt_verify] throws is an instance of [JsonWebTokenError]. *)
Lemma jwt_verify_throws (token key : string) (now : Z) (err : JsError) :
  jwt_verify token key now = Throw err -> instanceof_JsonWebTokenError err = true.
Proof.
  unfold jwt_verify.
  destruct (String.eqb token ""); [intros [= <-]; reflexivity |].
  destruct (unseal token) as [j |]; [| intros [= <-]; reflexivity].
  destruct (negb _); [intros [= <-]; reflexivity |].
  destruct (_ <=? _); [intros [= <-]; reflexivity | discriminate].
Qed.

(** A string the codec cannot read is rejected as a [JsonWebTokenError]. *)
Lemma jwt_verify_malformed (token key : string) (now : Z) :
  unseal token = None ->
  exists m, jwt_verify token key now = Throw (JsonWebTokenError m).
Proof.
  intros Hu. unfold jwt_verify. rewrite Hu.
  destruct (String.eqb token ""); eauto.
Qed.

(** A token signed with another key is rejected as a [JsonWebTokenError]. *)
Lemma jwt_verify_wrong_key (token key : string) (now : Z) (j : Jws) :
  token <> "" -> unseal token = Some j -> jws_key j <> key ->
  jwt_verify token key now = Throw (JsonWebTokenError "invalid signature").
Proof.
  intros Hne Hu Hk. unfold jwt_verify. rewrite Hu.
  apply String.eqb_neq in Hne, Hk. rewrite Hne, Hk. reflexivity.
Qed.

End CodecFacts.

Section TokenRoundTrip.
Context `{JwtCodec}.
Variable cfg : JwtConfig.

(** C4.  Round trip of the token codec: the token [generateToken] issues
    for [uid] and [mail] at time [issued], carried in a header
    [Bearer <token>] and verified as [authenticate] does (prefix removed,
    same secret) at any time [now] before its expiry, is accepted, and the
    payload holds [uid] and [mail]. *)
Theorem token_round_trip (uid mail : string) (issued now : Z) :
  now < issued + expiresIn cfg ->
  jwt_verify (bearerToken (Some ("Bearer " +:+ generateToken cfg issued uid mail)))
             (secret cfg) now
  = Ok {| userId := uid; payload_email := mail;
          iat := issued; exp := issued + expiresIn cfg |}.
Proof.
  intros Hnow. rewrite bearerToken_prefixed.
  unfold generateToken, jwt_sign. rewrite jwt_verify_seal. simpl.
  rewrite String.eqb_refl. simpl.
  destruct (Z.leb_spec (issued + expiresIn cfg) now) as [Hle | _]; [lia | reflexivity].
Qed.

End TokenRoundTrip.

(** A token issued at second 100 with the default seven days, verified at
    once. *)
Lemma token_round_trip_witness :
  jwt_verify (bearerToken
                (Some ("Bearer " +:+ generateToken Reference.cfg 100 "u1" "alice@example.com")))
             (secret Reference.cfg) 100
  = Ok {| userId := "u1"; payload_email := "alice@example.com";
          iat := 100; exp := 100 + expiresIn Reference.cfg |}.
Proof. apply (token_round_trip Reference.cfg "u1" "alice@example.com" 100 100). reflexivity. Defined.

(** ** The error translator on domain errors *)

Lemma errorHandler_AppError (env : ProcessEnv) (statusCode : Z) (message : string) :
  res_status (errorHandler env (AppError statusCode message)) = statusCode /\
  res_message (errorHandler env (AppError statusCode message)) = message /\
  res_errors (errorHandler env (AppError statusCode message)) = None.
Proof. repeat split. Qed.

(** The stack of an error is sent in development mode and in no other. *)
Lemma errorHandler_stack (env : ProcessEnv) (err : JsError) :
  res_stack (errorHandler env err)
  = if decide (NODE_ENV env = Some "development") then stack_of env err else None.
Proof.
  unfold errorHandler. destruct (translate err) as [[statusCode message] errors]. simpl.
  destruct (NODE_ENV env) as [mode |]; [| reflexivity].
  destruct (String.eqb_spec mode "development") as [-> | Hne].
  - rewrite decide_True by reflexivity. reflexivity.
  - rewrite decide_False by congruence. reflexivity.
Qed.

Example errorHandler_stack_development :
  res_stack (errorHandler Reference.development (OtherError "Error" "boom"))
  = Some "Error: at handler (app.js:1:1)".
Proof. reflexivity. Qed.

(** ** The mandatory middleware, case by case *)

Section MandatoryCases.
Context `{JwtCodec}.
Variable cfg : JwtConfig.
Variables (db : Store) (now : Z) (req : AuthRequest).

Lemma authenticate_no_bearer :
  isBearer (authorization req) = false ->
  authenticate cfg db now req = NextErr (UnauthorizedError "No token provided").
Proof. intros Hb. unfold authenticate, authenticate_try. rewrite Hb. reflexivity. Qed.

Lemma authenticate_verify_throws (err : JsError) :
  isBearer (authorization req) = true ->
  jwt_verify (bearerToken (authorization req)) (secret cfg) now = Throw err ->
  authenticate cfg db now req = NextErr (UnauthorizedError "Invalid token").
Proof.
  intros Hb Hv. unfold authenticate, authenticate_try. rewrite Hb, Hv. simpl.
  rewrite (jwt_verify_throws _ _ _ _ Hv). reflexivity.
Qed.

Lemma authenticate_unknown_user (decoded : JwtPayload) :
  isBearer (authorization req) = true ->
  jwt_verify (bearerToken (authorization req)) (secret cfg) now = Ok decoded ->
  findUnique_id db (userId decoded) = None ->
  authenticate cfg db now req = NextErr (UnauthorizedError "User not found").
Proof.
  intros Hb Hv Hu. unfold authenticate, authenticate_try. rewrite Hb, Hv. simpl.
  rewrite Hu. reflexivity.
Qed.

Lemma authenticate_accepts (decoded : JwtPayload) (u : User) :
  isBearer (authorization req) = true ->
  jwt_verify (bearerToken (authorization req)) (secret cfg) now = Ok decoded ->
  findUnique_id db (userId decoded) = Some u ->
  authenticate cfg db now req
  = Next (attach req {| ident_id := id u; ident_email := email u |}).
Proof.
  intros Hb Hv Hu. unfold authenticate, authenticate_try. rewrite Hb, Hv. simpl.
  rewrite Hu. reflexivity.
Qed.

(** The four ways [authenticate] ends, with what decides each. *)
Lemma authenticate_cases :
  (isBearer (authorization req) = false /\
   authenticate cfg db now req = NextErr (UnauthorizedError "No token provided")) \/
  (exists err,
     isBearer (authorization req) = true /\
     jwt_verify (bearerToken (authorization req)) (secret cfg) now = Throw err /\
     authenticate cfg db now req = NextErr (UnauthorizedError "Invalid token")) \/
  (exists decoded,
     isBearer (authorization req) = true /\
     jwt_verify (bearerToken (authorization req)) (secret cfg) now = Ok decoded /\
     findUnique_id db (userId decoded) = None /\
     authenticate cfg db now req = NextErr (UnauthorizedError "User not found")) \/
  (exists decoded u,
     isBearer (authorization req) = true /\
     jwt_verify (bearerToken (authorization req)) (secret cfg) now = Ok decoded /\
     findUnique_id db (userId decoded) = Some u /\
     authenticate cfg db now req
     = Next (attach req {| ident_id := id u; ident_email := email u |})).
Proof.
  destruct (isBearer (authorization req)) eqn:Hb.
  - right.
    destruct (jwt_verify (bearerToken (authorization req)) (secret cfg) now)
      as [decoded | err] eqn:Hv.
    + right. destruct (findUnique_id db (userId decoded)) as [u |] eqn:Hu.
      * right. exists decoded, u. eauto using authenticate_accepts.
      * left. exists decoded. eauto using authenticate_unknown_user.
    + left. exists err. eauto using authenticate_verify_throws.
  - left. eauto using authenticate_no_bearer.
Qed.

(** A header that is the prefix alone carries the empty token, which the
    codec refuses. *)
Lemma authenticate_empty_token :
  authorization req = Some "Bearer " ->
  authenticate cfg db now req = NextErr (UnauthorizedError "Invalid token").
Proof.
  intros Hh. apply authenticate_verify_throws
    with (err := JsonWebTokenError "jwt must be provided"); rewrite Hh; reflexivity.
Qed.

(** No request makes [authenticate] answer "Token expired": its [catch]
    tests the parent class first, and that test holds of an expired
    token's error too. *)
Lemma authenticate_never_says_expired :
  authenticate cfg db now req <> NextErr (UnauthorizedError "Token expired").
Proof.
  destruct authenticate_cases as [[_ E] | [(? & _ & _ & E) | [(? & _ & _ & _ & E) | (? & ? & _ & _ & _ & E)]]];
    rewrite E; discriminate.
Qed.

End MandatoryCases.

(** C1.  A request to [authenticate] carrying a Bearer token with a valid
    signature whose expiry has passed should fail as 401 "Token expired",
    distinct from "Invalid token".  On the code it does not: the token
    issued to alice at second 100 for seven days, presented after its expiry,
    makes the codec throw a [TokenExpiredError], and [authenticate] hands
    on 401 "Invalid token", as it does for a malformed token.
    [errorHandler], which tests the error's name, would have told the two
    apart. *)
Theorem authenticate_expired_token_reads_invalid :
  let token := generateToken Reference.cfg 100 "u1" "alice@example.com" in
  let req := Reference.request (Some ("Bearer " +:+ token)) in
  jwt_verify token (secret Reference.cfg) 700000
    = Throw (TokenExpiredError "jwt expired" 604900) /\
  authenticate Reference.cfg [Reference.alice] 700000 req
    = NextErr (UnauthorizedError "Invalid token") /\
  authenticate Reference.cfg [Reference.alice] 700000
               (Reference.request (Some "Bearer not.a.token"))
    = NextErr (UnauthorizedError "Invalid token") /\
  res_message (errorHandler Reference.production (UnauthorizedError "Invalid token"))
    = "Invalid token" /\
  res_message (errorHandler Reference.production (TokenExpiredError "jwt expired" 604900))
    = "Token expired".
Proof. vm_compute. repeat split. Qed.

Section Mandatory.
Context `{JwtCodec}.
Variable cfg : JwtConfig.
Variable env : ProcessEnv.
Variables (db : Store) (now : Z) (req : AuthRequest).

(** C6.  [authenticate] rejects a request with no Authorization header, one
    whose header does not start with [Bearer ], one whose token the codec
    refuses (unreadable, or signed with another key), and one whose token
    names a user the store no longer has; each is handed on as an
    [UnauthorizedError], which the error translator sends as 401 with the
    error's message.  The absent header gives "No token provided", a
    header of another scheme gives the same, and [GET /me] without a header
    answers 401 "No token provided". *)
Theorem authenticate_rejections :
  (authorization req = None ->
   authenticate cfg db now req = NextErr (UnauthorizedError "No token provided")) /\
  (forall h, authorization req = Some h -> startsWith h "Bearer " = false ->
   authenticate cfg db now req = NextErr (UnauthorizedError "No token provided")) /\
  (isBearer (authorization req) = true ->
   unseal (bearerToken (authorization req)) = None ->
   authenticate cfg db now req = NextErr (UnauthorizedError "Invalid token")) /\
  (forall j, isBearer (authorization req) = true ->
   bearerToken (authorization req) <> "" ->
   unseal (bearerToken (authorization req)) = Some j -> jws_key j <> secret cfg ->
   authenticate cfg db now req = NextErr (UnauthorizedError "Invalid token")) /\
  (forall decoded, isBearer (authorization req) = true ->
   jwt_verify (bearerToken (authorization req)) (secret cfg) now = Ok decoded ->
   findUnique_id db (userId decoded) = None ->
   authenticate cfg db now req = NextErr (UnauthorizedError "User not found")) /\
  (forall message,
   res_status (errorHandler env (UnauthorizedError message)) = 401 /\
   res_message (errorHandler env (UnauthorizedError message)) = message) /\
  (authorization req = None ->
   exists response, GET_me cfg env db now req = ReplyError response /\
     res_status response = 401 /\ res_message response = "No token provided").
Proof.
  repeat apply conj.
  - intros Hh. apply authenticate_no_bearer. rewrite Hh. reflexivity.
  - intros h Hh Hp. apply authenticate_no_bearer. rewrite Hh.
    apply isBearer_other_scheme, Hp.
  - intros Hb Hu.
    destruct (jwt_verify_malformed _ (secret cfg) now Hu) as [m Hv].
    eapply authenticate_verify_throws; eauto.
  - intros j Hb Hne Hu Hk.
    eapply authenticate_verify_throws; eauto using jwt_verify_wrong_key.
  - intros decoded. apply authenticate_unknown_user.
  - intros message. split; reflexivity.
  - intros Hh. unfold GET_me. rewrite authenticate_no_bearer.
    + eexists. repeat split.
    + rewrite Hh. reflexivity.
Qed.

(** C7.  [optionalAuth] always calls [next()] and never [next(err)]:
    whenever [authenticate] would fail (no header, another scheme, a token
    the codec refuses or finds expired, a user the store does not have),
    the request goes on exactly as it came, so with no identity if it had
    none; and whenever [authenticate] lets the request through,
    [optionalAuth] lets through the same request with the same identity
    attached: for a Bearer token the codec accepts and a row [u] the store
    has under the token's id, both hand on the request with
    [user = { id: u.id, email: u.email }] and nothing else changed. *)
Theorem optionalAuth_never_blocks :
  (exists req', optionalAuth cfg db now req = Next req') /\
  (forall err, authenticate cfg db now req = NextErr err ->
   optionalAuth cfg db now req = Next req) /\
  (forall err, authenticate cfg db now req = NextErr err -> user req = None ->
   exists req', optionalAuth cfg db now req = Next req' /\ user req' = None) /\
  (forall req', authenticate cfg db now req = Next req' ->
   optionalAuth cfg db now req = Next req') /\
  (forall decoded u,
     isBearer (authorization req) = true ->
     jwt_verify (bearerToken (authorization req)) (secret cfg) now = Ok decoded ->
     findUnique_id db (userId decoded) = Some u ->
     exists req',
       optionalAuth cfg db now req = Next req' /\
       authenticate cfg db now req = Next req' /\
       user req' = Some {| ident_id := id u; ident_email := email u |} /\
       authorization req' = authorization req /\
       body req' = body req /\ query req' = query req /\ params req' = params req).
Proof.
  assert (Hfail : forall err, authenticate cfg db now req = NextErr err ->
                              optionalAuth cfg db now req = Next req).
  { intros err. unfold authenticate, optionalAuth, authenticate_try, optionalAuth_try.
    destruct (isBearer (authorization req)); simpl; [| reflexivity].
    destruct (jwt_verify _ _ _) as [decoded | e]; simpl; [| reflexivity].
    destruct (findUnique_id db (userId decoded)); [discriminate | reflexivity]. }
  repeat apply conj.
  - unfold optionalAuth. destruct (optionalAuth_try cfg db now req); eauto.
  - exact Hfail.
  - intros err Ha Hu. exists req. eauto.
  - intros req'. unfold authenticate, optionalAuth, authenticate_try, optionalAuth_try.
    destruct (isBearer (authorization req)); simpl; [| discriminate].
    destruct (jwt_verify _ _ _) as [decoded | e]; simpl.
    + destruct (findUnique_id db (userId decoded)); [tauto | discriminate].
    + destruct (instanceof_JsonWebTokenError e); [discriminate |].
      destruct (instanceof_TokenExpiredError e); discriminate.
  - intros decoded u Hb Hv Hu.
    exists (attach req {| ident_id := id u; ident_email := email u |}).
    split; [| split; [| repeat split]].
    + unfold optionalAuth, optionalAuth_try. rewrite Hb, Hv. simpl. rewrite Hu.
      reflexivity.
    + apply authenticate_accepts with (decoded := decoded); assumption.
Qed.

End Mandatory.

(** The four rejections on concrete requests: no header, Basic scheme, an
    unreadable token, and alice's token once her row is gone. *)
Lemma authenticate_rejections_witness :
  let token := generateToken Reference.cfg 100 "u1" "alice@example.com" in
  authenticate Reference.cfg [Reference.alice] 200 (Reference.request None)
    = NextErr (UnauthorizedError "No token provided") /\
  authenticate Reference.cfg [Reference.alice] 200
               (Reference.request (Some "Basic YWxpY2U6cHc="))
    = NextErr (UnauthorizedError "No token provided") /\
  authenticate Reference.cfg [Reference.alice] 200
               (Reference.request (Some "Bearer not.a.token"))
    = NextErr (UnauthorizedError "Invalid token") /\
  authenticate Reference.cfg [] 200 (Reference.request (Some ("Bearer " +:+ token)))
    = NextErr (UnauthorizedError "User not found").
Proof.
  intros token. repeat apply conj.
  - destruct (authenticate_rejections Reference.cfg Reference.production
                [Reference.alice] 200 (Reference.request None)) as (Habsent & _).
    apply Habsent. reflexivity.
  - destruct (authenticate_rejections Reference.cfg Reference.production
                [Reference.alice] 200 (Reference.request (Some "Basic YWxpY2U6cHc=")))
      as (_ & Hscheme & _).
    apply (Hscheme "Basic YWxpY2U6cHc="); reflexivity.
  - destruct (authenticate_rejections Reference.cfg Reference.production
                [Reference.alice] 200 (Reference.request (Some "Bearer not.a.token")))
      as (_ & _ & Hmalformed & _).
    apply Hmalformed; reflexivity.
  - destruct (authenticate_rejections Reference.cfg Reference.production [] 200
                (Reference.request (Some ("Bearer " +:+ token))))
      as (_ & _ & _ & _ & Hgone & _).
    apply (Hgone {| userId := "u1"; payload_email := "alice@example.com";
                    iat := 100; exp := 604900 |});
      vm_compute; reflexivity.
Defined.

(** [optionalAuth] on a request without header, and on alice's token: the
    first goes on as it came, the second with alice as [user]. *)
Lemma optionalAuth_never_blocks_witness :
  let token := generateToken Reference.cfg 100 "u1" "alice@example.com" in
  let req := Reference.request (Some ("Bearer " +:+ token)) in
  optionalAuth Reference.cfg [Reference.alice] 200 (Reference.request None)
    = Next (Reference.request None) /\
  exists req',
    optionalAuth Reference.cfg [Reference.alice] 200 req = Next req' /\
    authenticate Reference.cfg [Reference.alice] 200 req = Next req' /\
    user req' = Some {| ident_id := "u1"; ident_email := "alice@example.com" |} /\
    authorization req' = authorization req /\
    body req' = body req /\ query req' = query req /\ params req' = params req.
Proof.
  intros token req. split.
  - destruct (optionalAuth_never_blocks Reference.cfg [Reference.alice] 200
                (Reference.request None)) as (_ & Hfail & _).
    apply (Hfail (UnauthorizedError "No token provided")). reflexivity.
  - destruct (optionalAuth_never_blocks Reference.cfg [Reference.alice] 200 req)
      as (_ & _ & _ & _ & Hattach).
    apply (Hattach {| userId := "u1"; payload_email := "alice@example.com";
                      iat := 100; exp := 604900 |} Reference.alice);
      vm_compute; reflexivity.
Defined.

(** ** Projections of a row *)


Lemma select_public (u : User) :
  select ["id"; "email"; "firstName"; "lastName"] u = publicUser u.
Proof. reflexivity. Qed.

Lemma select_profile (u : User) :
  select ["id"; "email"; "firstName"; "lastName"; "phone"; "createdAt"] u = profile u.
Proof. reflexivity. Qed.

Lemma publicUser_dom (u : User) :
  dom (publicUser u) = ({[ "id"; "email"; "firstName"; "lastName" ]} : gset string).
Proof. unfold publicUser. rewrite !dom_insert_L, dom_singleton_L. set_solver. Qed.

Lemma profile_dom (u : User) :
  dom (profile u)
  = ({[ "id"; "email"; "firstName"; "lastName"; "phone"; "createdAt" ]} : gset string).
Proof. unfold profile. rewrite !dom_insert_L, dom_singleton_L. set_solver. Qed.

Lemma publicUser_no_password (u : User) : publicUser u !! "password" = None.
Proof. unfold publicUser. rewrite !lookup_insert_ne by done. by apply lookup_singleton_ne. Qed.

Lemma profile_no_password (u : User) : profile u !! "password" = None.
Proof. unfold profile. rewrite !lookup_insert_ne by done. by apply lookup_singleton_ne. Qed.

(** ** The auth service, case by case *)

Section ServiceCases.
Context `{JwtCodec} `{Bcrypt}.
Variable cfg : JwtConfig.

Lemma register_existing (db : Store) (amb : Ambient) (data : RegisterInput) (u : User) :
  findUnique_email db (reg_email data) = Some u ->
  register cfg db amb data
  = (db, Throw (ConflictError "User with this email already exists")).
Proof. intros Hf. unfold register, register_check. rewrite Hf. reflexivity. Qed.

Lemma register_fresh (db : Store) (amb : Ambient) (data : RegisterInput) :
  findUnique_email db (reg_email data) = None ->
  findUnique_id db (amb_uuid amb) = None ->
  register cfg db amb data
  = ((db ++ [new_row amb (registration amb data)])%list,
     Ok {| resp_user := publicUser (new_row amb (registration amb data));
           token := generateToken cfg (amb_clock amb) (amb_uuid amb) (reg_email data) |}).
Proof.
  intros He Hi. unfold register, register_check, register_insert, create.
  simpl. rewrite He, Hi. reflexivity.
Qed.

(** Every success of [register] is the one [register_fresh] describes. *)
Lemma register_Ok (db db' : Store) (amb : Ambient) (data : RegisterInput)
  (r : AuthResponse) :
  register cfg db amb data = (db', Ok r) ->
  r = {| resp_user := publicUser (new_row amb (registration amb data));
         token := generateToken cfg (amb_clock amb) (amb_uuid amb) (reg_email data) |}.
Proof.
  destruct (findUnique_email db (reg_email data)) as [u |] eqn:He.
  - rewrite (register_existing _ _ _ _ He). discriminate.
  - destruct (findUnique_id db (amb_uuid amb)) as [u |] eqn:Hi.
    + unfold register, register_check, register_insert, create.
      simpl. rewrite He, Hi. discriminate.
    + rewrite (register_fresh _ _ _ He Hi). intros [= _ <-]. reflexivity.
Qed.

(** The insert of [register], met by a table that holds the email. *)
Lemma register_insert_duplicate (db : Store) (amb : Ambient) (data : RegisterInput)
  (u : User) :
  findUnique_email db (reg_email data) = Some u ->
  register_insert cfg db amb data
  = (db, Throw (PrismaClientKnownRequestError "P2002" (Some ["email"]))).
Proof. intros He. unfold register_insert, create. simpl. rewrite He. reflexivity. Qed.

Lemma login_unknown_email (db : Store) (amb : Ambient) (data : LoginInput) :
  findUnique_email db (login_email data) = None ->
  login cfg db amb data = Throw (UnauthorizedError "Invalid credentials").
Proof. intros Hf. unfold login. rewrite Hf. reflexivity. Qed.

Lemma login_wrong_password (db : Store) (amb : Ambient) (data : LoginInput) (u : User) :
  findUnique_email db (login_email data) = Some u ->
  bcrypt_compare (login_password data) (password u) = false ->
  login cfg db amb data = Throw (UnauthorizedError "Invalid credentials").
Proof. intros Hf Hc. unfold login. rewrite Hf, Hc. reflexivity. Qed.

Lemma login_accepts (db : Store) (amb : Ambient) (data : LoginInput) (u : User) :
  findUnique_email db (login_email data) = Some u ->
  bcrypt_compare (login_password data) (password u) = true ->
  login cfg db amb data
  = Ok {| resp_user := publicUser u;
          token := generateToken cfg (amb_clock amb) (id u) (email u) |}.
Proof. intros Hf Hc. unfold login. rewrite Hf, Hc. reflexivity. Qed.

(** Every success of [login] returns the public view of a stored row. *)
Lemma login_Ok (db : Store) (amb : Ambient) (data : LoginInput) (r : AuthResponse) :
  login cfg db amb data = Ok r ->
  exists u, findUnique_email db (login_email data) = Some u /\
            resp_user r = publicUser u.
Proof.
  unfold login. destruct (findUnique_email db (login_email data)) as [u |]; [| discriminate].
  destruct (bcrypt_compare _ _); [| discriminate].
  intros [= <-]. exists u. split; reflexivity.
Qed.

End ServiceCases.

Lemma getProfile_found (db : Store) (uid : string) (u : User) :
  findUnique_id db uid = Some u -> getProfile db uid = Ok (profile u).
Proof. intros Hf. unfold getProfile. rewrite Hf. reflexivity. Qed.

Lemma getProfile_Ok (db : Store) (uid : string) (data : gmap string JsValue) :
  getProfile db uid = Ok data ->
  exists u, findUnique_id db uid = Some u /\ data = profile u.
Proof.
  unfold getProfile. destruct (findUnique_id db uid) as [u |]; [| discriminate].
  intros [= <-]. exists u. split; reflexivity.
Qed.

Section ServiceProperties.
Context `{JwtCodec} `{Bcrypt}.
Variable cfg : JwtConfig.

(** C2.  A login with an email no user has and a login with a known email
    and a password the hash comparison refuses fail alike: both throw the
    same error, which the error translator sends as 401 "Invalid
    credentials" with no [errors] array. *)
Theorem login_failures_alike (db1 db2 : Store) (amb1 amb2 : Ambient)
  (unknown wrong : LoginInput) (u : User) (env : ProcessEnv) :
  findUnique_email db1 (login_email unknown) = None ->
  findUnique_email db2 (login_email wrong) = Some u ->
  bcrypt_compare (login_password wrong) (password u) = false ->
  exists err,
    login cfg db1 amb1 unknown = Throw err /\
    login cfg db2 amb2 wrong = Throw err /\
    err = UnauthorizedError "Invalid credentials" /\
    res_status (errorHandler env err) = 401 /\
    res_message (errorHandler env err) = "Invalid credentials" /\
    res_errors (errorHandler env err) = None.
Proof.
  intros Hnone Hsome Hcmp. exists (UnauthorizedError "Invalid credentials").
  rewrite (login_unknown_email cfg _ _ _ Hnone).
  rewrite (login_wrong_password cfg _ _ _ _ Hsome Hcmp).
  repeat split.
Qed.

(** C3.  The user object of every successful [register], [login] and
    [getProfile] has no [password] property; the token of a successful
    [register] decodes to the email that was submitted; and [register]
    does succeed when neither the email nor the generated id is in the
    table. *)
Theorem responses_without_password (db : Store) (amb : Ambient)
  (rdata : RegisterInput) (ldata : LoginInput) (uid : string) :
  (forall db' r, register cfg db amb rdata = (db', Ok r) ->
     resp_user r !! "password" = None /\
     jws_email <$> unseal (token r) = Some (reg_email rdata)) /\
  (forall r, login cfg db amb ldata = Ok r -> resp_user r !! "password" = None) /\
  (forall data, getProfile db uid = Ok data -> data !! "password" = None) /\
  (findUnique_email db (reg_email rdata) = None ->
   findUnique_id db (amb_uuid amb) = None ->
   exists db' r, register cfg db amb rdata = (db', Ok r)).
Proof.
  repeat apply conj.
  - intros db' r Hr. rewrite (register_Ok cfg _ _ _ _ _ Hr). simpl. split.
    + apply publicUser_no_password.
    + unfold generateToken, jwt_sign. rewrite unseal_seal. reflexivity.
  - intros r Hr. destruct (login_Ok cfg _ _ _ _ Hr) as (u & _ & ->).
    apply publicUser_no_password.
  - intros data Hd. destruct (getProfile_Ok _ _ _ Hd) as (u & _ & ->).
    apply profile_no_password.
  - intros He Hi. rewrite (register_fresh cfg _ _ _ He Hi). eauto.
Qed.

(** C10.  The user object of a successful [register] or [login] has the
    properties [id], [email], [firstName] and [lastName] and no other (so
    neither [phone] nor [createdAt]); the one [getProfile] returns has
    these four and [phone] and [createdAt]. *)
Theorem response_fields (db : Store) (amb : Ambient)
  (rdata : RegisterInput) (ldata : LoginInput) (uid : string) :
  (forall db' r, register cfg db amb rdata = (db', Ok r) ->
     dom (resp_user r) = ({[ "id"; "email"; "firstName"; "lastName" ]} : gset string)) /\
  (forall r, login cfg db amb ldata = Ok r ->
     dom (resp_user r) = ({[ "id"; "email"; "firstName"; "lastName" ]} : gset string)) /\
  (forall data, getProfile db uid = Ok data ->
     dom data = ({[ "id"; "email"; "firstName"; "lastName"; "phone"; "createdAt" ]}
                 : gset string)).
Proof.
  repeat apply conj.
  - intros db' r Hr. rewrite (register_Ok cfg _ _ _ _ _ Hr). apply publicUser_dom.
  - intros r Hr. destruct (login_Ok cfg _ _ _ _ Hr) as (u & _ & ->).
    apply publicUser_dom.
  - intros data Hd. destruct (getProfile_Ok _ _ _ Hd) as (u & _ & ->).
    apply profile_dom.
Qed.

(** C5.  A registration whose email is in the table is refused by
    [register] with the [ConflictError], whatever the password and names
    submitted.  When the email enters the table between the existence
    check and the insert, the insert fails with the store's P2002 error,
    and the error translator sends that as the duplicate outcome of its
    table for this detection point: 400 "Duplicate field value: email". *)
Theorem duplicate_registration (db db_later : Store) (amb : Ambient)
  (data : RegisterInput) (u : User) (env : ProcessEnv) :
  (findUnique_email db (reg_email data) = Some u ->
   (forall data', reg_email data' = reg_email data ->
      register cfg db amb data'
      = (db, Throw (ConflictError "User with this email already exists"))) /\
   res_status (errorHandler env (ConflictError "User with this email already exists"))
   = 409) /\
  (findUnique_email db (reg_email data) = None ->
   findUnique_email db_later (reg_email data) = Some u ->
   exists err,
     register_raced cfg db db_later amb data = (db_later, Throw err) /\
     err = PrismaClientKnownRequestError "P2002" (Some ["email"]) /\
     res_status (errorHandler env err) = 400 /\
     res_message (errorHandler env err) = "Duplicate field value: email").
Proof.
  split.
  - intros He. split; [| reflexivity].
    intros data' Hd. apply register_existing with (u := u). rewrite Hd. exact He.
  - intros He Hl. eexists. split; [| repeat split].
    unfold register_raced, register_check. rewrite He.
    apply register_insert_duplicate with (u := u). exact Hl.
Qed.

End ServiceProperties.


(** A login under an unknown address and a login of alice with a wrong
    password. *)
Lemma login_failures_alike_witness :
  exists err,
    login Reference.cfg [Reference.alice] Reference.amb Examples.nobody_login = Throw err /\
    login Reference.cfg [Reference.alice] Reference.amb (Examples.alice_login "guess")
    = Throw err /\
    err = UnauthorizedError "Invalid credentials" /\
    res_status (errorHandler Reference.production err) = 401 /\
    res_message (errorHandler Reference.production err) = "Invalid credentials" /\
    res_errors (errorHandler Reference.production err) = None.
Proof.
  apply (login_failures_alike Reference.cfg [Reference.alice] [Reference.alice]
           Reference.amb Reference.amb Examples.nobody_login
           (Examples.alice_login "guess") Reference.alice Reference.production);
    reflexivity.
Defined.

(** Bob registers next to alice; alice logs in and reads her profile. *)
Lemma responses_without_password_witness :
  (exists db' r,
     register Reference.cfg [Reference.alice] Reference.amb Examples.bob = (db', Ok r) /\
     resp_user r !! "password" = None /\
     jws_email <$> unseal (token r) = Some "bob@example.com") /\
  (exists r,
     login Reference.cfg [Reference.alice] Reference.amb (Examples.alice_login "Secret123")
     = Ok r /\ resp_user r !! "password" = None) /\
  (exists data,
     getProfile [Reference.alice] "u1" = Ok data /\ data !! "password" = None).
Proof.
  destruct (responses_without_password Reference.cfg [Reference.alice] Reference.amb
              Examples.bob (Examples.alice_login "Secret123") "u1")
    as (Hreg & Hlogin & Hprofile & Hfresh).
  repeat apply conj.
  - destruct (Hfresh eq_refl eq_refl) as (db' & r & Hr).
    exists db', r. split; [exact Hr | exact (Hreg db' r Hr)].
  - eexists. split; [reflexivity |]. apply Hlogin. reflexivity.
  - eexists. split; [reflexivity |]. apply Hprofile. reflexivity.
Defined.

(** The same three calls, for their fields. *)
Lemma response_fields_witness :
  (exists db' r,
     register Reference.cfg [Reference.alice] Reference.amb Examples.bob = (db', Ok r) /\
     dom (resp_user r) = ({[ "id"; "email"; "firstName"; "lastName" ]} : gset string)) /\
  (exists r,
     login Reference.cfg [Reference.alice] Reference.amb (Examples.alice_login "Secret123")
     = Ok r /\
     dom (resp_user r) = ({[ "id"; "email"; "firstName"; "lastName" ]} : gset string)) /\
  (exists data,
     getProfile [Reference.alice] "u1" = Ok data /\
     dom data = ({[ "id"; "email"; "firstName"; "lastName"; "phone"; "createdAt" ]}
                 : gset string)).
Proof.
  destruct (response_fields Reference.cfg [Reference.alice] Reference.amb
              Examples.bob (Examples.alice_login "Secret123") "u1")
    as (Hreg & Hlogin & Hprofile).
  repeat apply conj.
  - eexists _, _. split; [reflexivity |]. eapply Hreg. reflexivity.
  - eexists. split; [reflexivity |]. apply Hlogin. reflexivity.
  - eexists. split; [reflexivity |]. apply Hprofile. reflexivity.
Defined.

(** Alice's address registered again: against the table that holds her,
    and against an empty table that holds her by the time of the insert. *)
Lemma duplicate_registration_witness :
  register Reference.cfg [Reference.alice] Reference.amb Examples.alice_again
  = ([Reference.alice], Throw (ConflictError "User with this email already exists")) /\
  exists err,
    register_raced Reference.cfg [] [Reference.alice] Reference.amb Examples.alice_again
    = ([Reference.alice], Throw err) /\
    err = PrismaClientKnownRequestError "P2002" (Some ["email"]) /\
    res_status (errorHandler Reference.production err) = 400 /\
    res_message (errorHandler Reference.production err) = "Duplicate field value: email".
Proof.
  split.
  - destruct (duplicate_registration Reference.cfg [Reference.alice] [Reference.alice]
                Reference.amb Examples.alice_again Reference.alice Reference.production)
      as (Hdup & _).
    destruct (Hdup eq_refl) as (Hany & _). apply Hany. reflexivity.
  - destruct (duplicate_registration Reference.cfg [] [Reference.alice]
                Reference.amb Examples.alice_again Reference.alice Reference.production)
      as (_ & Hrace).
    apply Hrace; reflexivity.
Defined.

(** The two detection points of a duplicate answer with different
    statuses: the existence check with that of the [ConflictError], the
    store's constraint with 400. *)
Lemma duplicate_detection_points_differ :
  register_raced Reference.cfg [] [Reference.alice] Reference.amb Examples.alice_again
  = ([Reference.alice], Throw (PrismaClientKnownRequestError "P2002" (Some ["email"]))) /\
  res_status (errorHandler Reference.production
                (PrismaClientKnownRequestError "P2002" (Some ["email"]))) = 400 /\
  res_status (errorHandler Reference.production
                (PrismaClientKnownRequestError "P2002" (Some ["email"])))
  <> res_status (errorHandler Reference.production
                   (ConflictError "User with this email already exists")).
Proof. repeat split. discriminate. Qed.

(** ** The validation gate and the error translator *)



(** Induction on schemas, with the hypothesis for every member of an
    object's shape. *)
Definition Schema_shape_ind (P : Schema -> Prop)
  (HString : forall checks, P (ZString checks))
  (HOptional : forall inner, P inner -> P (ZOptional inner))
  (HObject : forall shape, Forall (fun entry => P (snd entry)) shape -> P (ZObject shape))
  : forall schema, P schema :=
  fix go (schema : Schema) : P schema :=
    match schema with
    | ZString checks => HString checks
    | ZOptional inner => HOptional inner (go inner)
    | ZObject shape =>
        HObject shape
          ((fix all (l : list (string * Schema)) : Forall (fun entry => P (snd entry)) l :=
              match l with
              | [] => @List.Forall_nil _ _
              | entry :: rest =>
                  @List.Forall_cons _ _ entry rest
                    (match entry as e return P (snd e) with (_, sub) => go sub end)
                    (all rest)
              end) shape)
    end.

(** Every issue zod reports lies at or below the place the schema was
    applied to: its path extends that place's path. *)
Lemma issues_of_below (schema : Schema) :
  forall (path : list string) (v : JsValue),
    Forall (fun issue => path `prefix_of` issue_path issue) (issues_of schema path v).
Proof.
  assert (Hone : forall expected path v,
             Forall (fun issue => path `prefix_of` issue_path issue)
                    [invalid_type expected path v]).
  { intros expected path v. constructor; [reflexivity | constructor]. }
  induction schema as [checks | inner IH | shape IH] using Schema_shape_ind;
    intros path v.
  - destruct v as [| | b | n | str | t | items | props]; simpl; try apply Hone.
    unfold check_string. induction checks as [| c rest IHc]; simpl; [constructor |].
    destruct (check_test c str); simpl; [exact IHc | constructor; [reflexivity | exact IHc]].
  - destruct v; simpl; try apply IH. constructor.
  - destruct v as [| | b | n | str | t | items | props]; simpl; try apply Hone.
    induction IH as [| [k sub] rest Hsub _ IHrest]; simpl; [constructor |].
    apply Forall_app. split; [| exact IHrest].
    eapply Forall_impl; [apply Hsub |].
    intros issue Hp. simpl in Hp. etrans; [| exact Hp]. apply prefix_app_r. reflexivity.
Qed.

Section Gate.
Context `{ZodEmail}.

(** C8.  When a request violates the schema, [validate] hands on a
    [ZodError] holding the issues in the order zod found them, and the
    error translator sends it as 422 "Validation failed" with an [errors]
    array that has, issue by issue and in that order, the path joined with
    dots as [field] and the issue's message; no error of another kind
    gets an [errors] array, and a request that meets the schema passes on
    unchanged.  For the body [{ email: "not-an-email", password: "short" }]
    against [RegisterSchema] the array has one entry for [body.email] and
    three for [body.password]. *)
Theorem validation_gate (schema : Schema) (req : AuthRequest) (env : ProcessEnv) :
  (issues_of schema [] (schemaInput req) <> [] ->
   exists issues,
     issues = issues_of schema [] (schemaInput req) /\
     validate schema req = NextErr (ZodError issues) /\
     res_status (errorHandler env (ZodError issues)) = 422 /\
     res_message (errorHandler env (ZodError issues)) = "Validation failed" /\
     exists errors,
       res_errors (errorHandler env (ZodError issues)) = Some errors /\
       Forall2 (fun issue entry =>
                  field entry = join "." (issue_path issue) /\
                  field_message entry = issue_message issue)
               issues errors) /\
  (issues_of schema [] (schemaInput req) = [] -> validate schema req = Next req) /\
  (forall err, instanceof_ZodError err = false ->
               res_errors (errorHandler env err) = None) /\
  (isEmail "not-an-email" = false ->
   body req = GateExamples.bad_body ->
   validate RegisterSchema req = NextErr (ZodError GateExamples.bad_issues) /\
   res_status (errorHandler env (ZodError GateExamples.bad_issues)) = 422 /\
   res_errors (errorHandler env (ZodError GateExamples.bad_issues))
   = Some GateExamples.bad_errors).
Proof.
  repeat apply conj.
  - intros Hbad. exists (issues_of schema [] (schemaInput req)).
    split; [reflexivity |]. split.
    + unfold validate, parseAsync.
      destruct (issues_of schema [] (schemaInput req)); [congruence | reflexivity].
    + split; [reflexivity |]. split; [reflexivity |].
      exists (map field_error (issues_of schema [] (schemaInput req))).
      split; [reflexivity |].
      clear Hbad.
      induction (issues_of schema [] (schemaInput req)) as [| issue rest IH];
        simpl; constructor; [split; reflexivity | exact IH].
  - intros Hok. unfold validate, parseAsync. rewrite Hok. reflexivity.
  - intros err Herr. unfold errorHandler, translate.
    destruct err; try discriminate; try reflexivity;
      simpl; repeat (destruct (String.eqb _ _)); reflexivity.
  - intros Hemail Hbody. unfold validate, parseAsync, schemaInput. rewrite Hbody.
    unfold GateExamples.bad_body. cbn. rewrite Hemail. cbn. repeat split.
Qed.

End Gate.

(** The payload of the specification against the registration schema. *)
Lemma validation_gate_witness :
  (validate RegisterSchema GateExamples.bad_request
   = NextErr (ZodError GateExamples.bad_issues) /\
   res_status (errorHandler Reference.production (ZodError GateExamples.bad_issues)) = 422 /\
   res_errors (errorHandler Reference.production (ZodError GateExamples.bad_issues))
   = Some GateExamples.bad_errors) /\
  (exists issues,
     issues = issues_of RegisterSchema [] (schemaInput GateExamples.bad_request) /\
     validate RegisterSchema GateExamples.bad_request = NextErr (ZodError issues) /\
     res_status (errorHandler Reference.production (ZodError issues)) = 422 /\
     res_message (errorHandler Reference.production (ZodError issues))
     = "Validation failed" /\
     exists errors,
       res_errors (errorHandler Reference.production (ZodError issues)) = Some errors /\
       Forall2 (fun issue entry =>
                  field entry = join "." (issue_path issue) /\
                  field_message entry = issue_message issue)
               issues errors).
Proof.
  destruct (validation_gate RegisterSchema GateExamples.bad_request Reference.production)
    as (Hany & _ & _ & Hbad).
  split.
  - apply Hbad; reflexivity.
  - apply Hany. discriminate.
Defined.

(** C9, as the code has it.  An error the translator classifies nowhere is
    sent with status 500, no [errors] array, and its own message ("Internal
    server error" only when it has none), whatever the mode; outside
    development mode the response has no [stack]. *)
Theorem unclassified_error_response (env : ProcessEnv) (err : JsError) :
  unclassified err = true ->
  res_status (errorHandler env err) = 500 /\
  res_message (errorHandler env err) = message_or_default (error_message err) /\
  (error_message err <> "" -> res_message (errorHandler env err) = error_message err) /\
  res_errors (errorHandler env err) = None /\
  (NODE_ENV env <> Some "development" -> res_stack (errorHandler env err) = None).
Proof.
  intros Hu.
  assert (Ht : translate err = (500, message_or_default (error_message err), None)).
  { unfold unclassified in Hu. unfold translate.
    destruct err as [| | | | | m d | name m]; simpl in Hu; try discriminate Hu; simpl.
    - reflexivity.
    - destruct (String.eqb name "JsonWebTokenError"); [discriminate Hu |].
      destruct (String.eqb name "TokenExpiredError"); [discriminate Hu | reflexivity]. }
  unfold errorHandler. rewrite Ht. simpl. repeat apply conj; try reflexivity.
  - intros Hm. unfold message_or_default.
    apply String.eqb_neq in Hm. rewrite Hm. reflexivity.
  - intros Hmode. destruct (NODE_ENV env) as [mode |]; [| reflexivity].
    destruct (String.eqb_spec mode "development") as [-> | _]; [congruence | reflexivity].
Qed.

(** A refused database connection, reported in production. *)
Lemma unclassified_error_response_witness :
  res_status (errorHandler Reference.production GateExamples.refused_connection) = 500 /\
  res_message (errorHandler Reference.production GateExamples.refused_connection)
  = message_or_default "connect ECONNREFUSED 10.0.0.5:5432" /\
  (error_message GateExamples.refused_connection <> "" ->
   res_message (errorHandler Reference.production GateExamples.refused_connection)
   = "connect ECONNREFUSED 10.0.0.5:5432") /\
  res_errors (errorHandler Reference.production GateExamples.refused_connection) = None /\
  (NODE_ENV Reference.production <> Some "development" ->
   res_stack (errorHandler Reference.production GateExamples.refused_connection) = None).
Proof.
  apply (unclassified_error_response Reference.production GateExamples.refused_connection).
  reflexivity.
Defined.

(** C9, as the claim has it, fails: in production the message of an
    unclassified error reaches the client as it is. *)
Lemma production_reveals_message :
  unclassified GateExamples.refused_connection = true /\
  NODE_ENV Reference.production = Some "production" /\
  res_status (errorHandler Reference.production GateExamples.refused_connection) = 500 /\
  res_message (errorHandler Reference.production GateExamples.refused_connection)
  = error_message GateExamples.refused_connection /\
  res_message (errorHandler Reference.production GateExamples.refused_connection)
  <> "Internal server error".
Proof. repeat split. discriminate. Qed.

(** * Further properties of the code *)

(** ** Lookups in the users table *)

Lemma findUnique_email_Some (db : Store) (mail : string) (u : User) :
  findUnique_email db mail = Some u -> In u db /\ email u = mail.
Proof.
  intros Hf. apply List.find_some in Hf. destruct Hf as [Hin Heq].
  split; [exact Hin | apply String.eqb_eq, Heq].
Qed.

Lemma findUnique_id_Some (db : Store) (uid : string) (u : User) :
  findUnique_id db uid = Some u -> In u db /\ id u = uid.
Proof.
  intros Hf. apply List.find_some in Hf. destruct Hf as [Hin Heq].
  split; [exact Hin | apply String.eqb_eq, Heq].
Qed.

Lemma findUnique_email_None (db : Store) (mail : string) :
  findUnique_email db mail = None -> ~ In mail (map email db).
Proof.
  intros Hf Hin. apply in_map_iff in Hin. destruct Hin as (u & Hu & Hin).
  apply (List.find_none _ _ Hf) in Hin. rewrite Hu, String.eqb_refl in Hin. discriminate.
Qed.

Lemma findUnique_id_None (db : Store) (uid : string) :
  findUnique_id db uid = None -> ~ In uid (map id db).
Proof.
  intros Hf Hin. apply in_map_iff in Hin. destruct Hin as (u & Hu & Hin).
  apply (List.find_none _ _ Hf) in Hin. rewrite Hu, String.eqb_refl in Hin. discriminate.
Qed.

Lemma findUnique_email_app (db : Store) (row : User) (mail : string) :
  findUnique_email (db ++ [row])%list mail
  = match findUnique_email db mail with
    | Some u => Some u
    | None => if String.eqb (email row) mail then Some row else None
    end.
Proof.
  unfold findUnique_email. induction db as [| u rest IH]; simpl; [reflexivity |].
  destruct (String.eqb (email u) mail); [reflexivity | exact IH].
Qed.

Lemma findUnique_id_app (db : Store) (row : User) (uid : string) :
  findUnique_id (db ++ [row])%list uid
  = match findUnique_id db uid with
    | Some u => Some u
    | None => if String.eqb (id row) uid then Some row else None
    end.
Proof.
  unfold findUnique_id. induction db as [| u rest IH]; simpl; [reflexivity |].
  destruct (String.eqb (id u) uid); [reflexivity | exact IH].
Qed.

(** In a table whose ids are distinct, the lookup by a row's id finds
    that row. *)
Lemma findUnique_id_of_row (db : Store) (u : User) :
  NoDup (map id db) -> In u db -> findUnique_id db (id u) = Some u.
Proof.
  unfold findUnique_id. induction db as [| v rest IH]; simpl; [tauto |].
  intros Hnd [-> | Hin].
  - rewrite String.eqb_refl. reflexivity.
  - apply NoDup_cons in Hnd. destruct Hnd as [Hv Hnd].
    destruct (String.eqb_spec (id v) (id u)) as [Heq | _]; [| auto].
    exfalso. apply Hv. rewrite Heq. apply list_elem_of_In, in_map, Hin.
Qed.

Section RegistrationEffects.
Context `{JwtCodec} `{Bcrypt}.
Variable cfg : JwtConfig.

(** Whatever [register] answers, this is what it did to the table. *)
Lemma register_store (db db' : Store) (amb : Ambient) (data : RegisterInput)
  (result : Result AuthResponse) :
  register cfg db amb data = (db', result) ->
  (exists r, result = Ok r /\
             findUnique_email db (reg_email data) = None /\
             findUnique_id db (amb_uuid amb) = None /\
             db' = (db ++ [new_row amb (registration amb data)])%list) \/
  (exists err, result = Throw err /\ db' = db).
Proof.
  destruct (findUnique_email db (reg_email data)) as [u |] eqn:He.
  - rewrite (register_existing cfg _ _ _ _ He). intros [= <- <-]. right. eauto.
  - destruct (findUnique_id db (amb_uuid amb)) as [u |] eqn:Hi.
    + unfold register, register_check, register_insert, create.
      simpl. rewrite He, Hi. intros [= <- <-]. right. eauto.
    + rewrite (register_fresh cfg _ _ _ He Hi). intros [= <- <-]. left. eauto.
Qed.

(** X1.  A successful [register] has appended exactly one row to the
    table, after the rows that were there and without changing them: the
    row has the id the store generated, the email and names submitted, a
    null phone, and as its password column the bcrypt digest of cost 12 of
    the password submitted; the user of the response is the public view of
    that row, and the email was in no row before. *)
Theorem register_appends_row (db db' : Store) (amb : Ambient) (data : RegisterInput)
  (r : AuthResponse) :
  register cfg db amb data = (db', Ok r) ->
  exists row,
    db' = (db ++ [row])%list /\
    id row = amb_uuid amb /\ email row = reg_email data /\
    password row = bcrypt_hash (reg_password data) 12%N (amb_salt amb) /\
    firstName row = reg_firstName data /\ lastName row = reg_lastName data /\
    phone row = None /\ createdAt row = amb_dbtime amb /\
    resp_user r = publicUser row /\
    ~ In (reg_email data) (map email db).
Proof.
  intros Hr.
  destruct (register_store _ _ _ _ _ Hr) as [(r' & _ & He & _ & ->) | (err & [=] & _)].
  rewrite (register_Ok cfg _ _ _ _ _ Hr).
  eexists. split; [reflexivity |]. repeat split.
  apply findUnique_email_None, He.
Qed.

(** X2.  After a successful [register] the new user is found by the email
    and by the id, every other email resolves as before, and a second
    [register] under the same email is refused with the [ConflictError]
    whatever its password and names, leaving the table alone. *)
Theorem register_then_lookup (db db' : Store) (amb : Ambient) (data : RegisterInput)
  (r : AuthResponse) :
  register cfg db amb data = (db', Ok r) ->
  findUnique_email db' (reg_email data) = Some (new_row amb (registration amb data)) /\
  findUnique_id db' (amb_uuid amb) = Some (new_row amb (registration amb data)) /\
  (forall mail, mail <> reg_email data ->
     findUnique_email db' mail = findUnique_email db mail) /\
  (forall amb' again, reg_email again = reg_email data ->
     register cfg db' amb' again
     = (db', Throw (ConflictError "User with this email already exists"))).
Proof.
  intros Hr.
  destruct (register_store _ _ _ _ _ Hr) as [(r' & _ & He & Hi & ->) | (err & [=] & _)].
  assert (Hnew : findUnique_email (db ++ [new_row amb (registration amb data)])%list
                   (reg_email data) = Some (new_row amb (registration amb data))).
  { rewrite findUnique_email_app, He. simpl. rewrite String.eqb_refl. reflexivity. }
  repeat apply conj.
  - exact Hnew.
  - rewrite findUnique_id_app, Hi. simpl. rewrite String.eqb_refl. reflexivity.
  - intros mail Hne. rewrite findUnique_email_app.
    destruct (findUnique_email db mail); [reflexivity |]. simpl.
    destruct (String.eqb_spec (reg_email data) mail); [congruence | reflexivity].
  - intros amb' again Hsame. eapply register_existing. rewrite Hsame. exact Hnew.
Qed.

End RegistrationEffects.

(** ** Tokens in use *)

Section TokensInUse.
Context `{JwtCodec} `{Bcrypt}.
Variable cfg : JwtConfig.

(** Every success of [login], in full. *)
Lemma login_Ok_token (db : Store) (amb : Ambient) (data : LoginInput) (r : AuthResponse) :
  login cfg db amb data = Ok r ->
  exists u, findUnique_email db (login_email data) = Some u /\
            bcrypt_compare (login_password data) (password u) = true /\
            r = {| resp_user := publicUser u;
                   token := generateToken cfg (amb_clock amb) (id u) (email u) |}.
Proof.
  unfold login. destruct (findUnique_email db (login_email data)) as [u |]; [| discriminate].
  destruct (bcrypt_compare _ _) eqn:Hc; [| discriminate].
  intros [= <-]. exists u. split; [reflexivity |]. split; [exact Hc | reflexivity].
Qed.

(** What [authenticate] does with a token of [generateToken] whose user is
    in the table, before the token expires. *)
Lemma authenticate_issued (db : Store) (issued now : Z) (u : User) (uid mail : string)
  (req : AuthRequest) :
  authorization req = Some ("Bearer " +:+ generateToken cfg issued uid mail) ->
  now < issued + expiresIn cfg ->
  findUnique_id db uid = Some u ->
  authenticate cfg db now req
  = Next (attach req {| ident_id := id u; ident_email := email u |}).
Proof.
  intros Hh Hnow Hu.
  apply authenticate_accepts
    with (decoded := {| userId := uid; payload_email := mail;
                        iat := issued; exp := issued + expiresIn cfg |}).
  - rewrite Hh. apply isBearer_prefixed.
  - rewrite Hh. apply token_round_trip. exact Hnow.
  - exact Hu.
Qed.

(** X3.  The credentials of a successful [register] log in: provided
    bcrypt verifies the digest it made of the password, [login] under the
    same email and password on the resulting table succeeds, returns the
    same user object as [register] did, and its token carries the new
    user's id and email. *)
Theorem register_then_login (db db' : Store) (amb amb' : Ambient)
  (data : RegisterInput) (r : AuthResponse) :
  register cfg db amb data = (db', Ok r) ->
  bcrypt_compare (reg_password data)
                 (bcrypt_hash (reg_password data) 12%N (amb_salt amb)) = true ->
  login cfg db' amb'
        {| login_email := reg_email data; login_password := reg_password data |}
  = Ok {| resp_user := resp_user r;
          token := generateToken cfg (amb_clock amb') (amb_uuid amb) (reg_email data) |}.
Proof.
  intros Hr Hc.
  destruct (register_then_lookup cfg _ _ _ _ _ Hr) as (Hmail & _).
  rewrite (register_Ok cfg _ _ _ _ _ Hr). simpl.
  rewrite (login_accepts cfg db' amb'
             {| login_email := reg_email data; login_password := reg_password data |}
             (new_row amb (registration amb data)) Hmail Hc).
  reflexivity.
Qed.

(** X4.  The token of a successful [register], sent as
    [Authorization: Bearer <token>] to [GET /me] before it expires, is
    answered 200 with the six-column profile of the user just created:
    its [id] and [email] are those of the [register] response. *)
Theorem register_then_me (env : ProcessEnv) (db db' : Store) (amb : Ambient)
  (data : RegisterInput) (r : AuthResponse) (now : Z) (req : AuthRequest) :
  register cfg db amb data = (db', Ok r) ->
  authorization req = Some ("Bearer " +:+ token r) ->
  now < amb_clock amb + expiresIn cfg ->
  exists me,
    GET_me cfg env db' now req = ReplyData 200 me /\
    me = profile (new_row amb (registration amb data)) /\
    me !! "id" = resp_user r !! "id" /\
    me !! "email" = resp_user r !! "email" /\
    me !! "email" = Some (JStr (reg_email data)).
Proof.
  intros Hr Hh Hnow.
  destruct (register_then_lookup cfg _ _ _ _ _ Hr) as (_ & Hid & _).
  rewrite (register_Ok cfg _ _ _ _ _ Hr) in *. simpl in Hh.
  exists (profile (new_row amb (registration amb data))).
  split; [| repeat split].
  unfold GET_me.
  rewrite (authenticate_issued _ _ _ _ _ _ _ Hh Hnow Hid). unfold getMe. simpl.
  rewrite (getProfile_found _ _ _ Hid). reflexivity.
Qed.

(** X5.  The token of a successful [login] authenticates as the user who
    logged in: in a table whose ids are distinct, [authenticate] given that
    token before it expires passes the request on with that user's id and
    email attached. *)
Theorem login_then_authenticate (db : Store) (amb : Ambient) (data : LoginInput)
  (r : AuthResponse) (now : Z) (req : AuthRequest) :
  login cfg db amb data = Ok r ->
  NoDup (map id db) ->
  authorization req = Some ("Bearer " +:+ token r) ->
  now < amb_clock amb + expiresIn cfg ->
  exists u,
    findUnique_email db (login_email data) = Some u /\
    authenticate cfg db now req
    = Next (attach req {| ident_id := id u; ident_email := email u |}).
Proof.
  intros Hl Hids Hh Hnow.
  destruct (login_Ok_token _ _ _ _ Hl) as (u & Hu & _ & ->). simpl in Hh.
  exists u. split; [exact Hu |].
  apply authenticate_issued with (issued := amb_clock amb) (uid := id u) (mail := email u);
    [exact Hh | exact Hnow |].
  apply findUnique_id_of_row; [exact Hids |].
  apply (findUnique_email_Some _ _ _ Hu).
Qed.

End TokensInUse.

Section TokenLifetime.
Context `{JwtCodec}.
Variable cfg : JwtConfig.

(** X6.  A token of [generateToken] verifies under the same secret exactly
    while the clock is before [issued + expiresIn]; from that second on
    the codec throws [TokenExpiredError].  With a configured duration of
    zero or less no moment from the issue on accepts the token. *)
Theorem token_lifetime (uid mail : string) (issued now : Z) :
  jwt_verify (generateToken cfg issued uid mail) (secret cfg) now
  = (if issued + expiresIn cfg <=? now
     then Throw (TokenExpiredError "jwt expired" (issued + expiresIn cfg))
     else Ok {| userId := uid; payload_email := mail;
                iat := issued; exp := issued + expiresIn cfg |}) /\
  (expiresIn cfg <= 0 -> issued <= now ->
   jwt_verify (generateToken cfg issued uid mail) (secret cfg) now
   = Throw (TokenExpiredError "jwt expired" (issued + expiresIn cfg))).
Proof.
  assert (Hv : jwt_verify (generateToken cfg issued uid mail) (secret cfg) now
               = (if issued + expiresIn cfg <=? now
                  then Throw (TokenExpiredError "jwt expired" (issued + expiresIn cfg))
                  else Ok {| userId := uid; payload_email := mail;
                             iat := issued; exp := issued + expiresIn cfg |})).
  { unfold generateToken, jwt_sign. rewrite jwt_verify_seal. simpl.
    rewrite String.eqb_refl. reflexivity. }
  split; [exact Hv |].
  intros Hd Hn. rewrite Hv.
  destruct (Z.leb_spec (issued + expiresIn cfg) now); [reflexivity | lia].
Qed.

(** X7.  A token signed under another secret is never accepted: whatever
    its age and whoever it names, [authenticate] hands on 401 "Invalid
    token", and [optionalAuth] lets the request through as it came. *)
Theorem foreign_token_rejected (other : JwtConfig) (db : Store) (issued now : Z)
  (uid mail : string) (req : AuthRequest) :
  secret other <> secret cfg ->
  authorization req = Some ("Bearer " +:+ generateToken other issued uid mail) ->
  authenticate cfg db now req = NextErr (UnauthorizedError "Invalid token") /\
  optionalAuth cfg db now req = Next req.
Proof.
  intros Hs Hh.
  assert (Hv : jwt_verify (bearerToken (authorization req)) (secret cfg) now
               = Throw (JsonWebTokenError "invalid signature")).
  { rewrite Hh, bearerToken_prefixed. unfold generateToken, jwt_sign.
    rewrite jwt_verify_seal. simpl.
    apply String.eqb_neq in Hs. rewrite Hs. reflexivity. }
  assert (Hb : isBearer (authorization req) = true).
  { rewrite Hh. apply isBearer_prefixed. }
  repeat split.
  - eapply authenticate_verify_throws; eauto.
  - unfold optionalAuth, optionalAuth_try. rewrite Hb, Hv. reflexivity.
Qed.

(** X8.  When [authenticate] passes a request on, the request differs from
    the one it received in [user] alone; the identity attached is a row of
    the table, found under the id the token names, so its email is the
    table's and not the token's; and the header was [Bearer ] followed by
    a token the codec accepts at that moment. *)
Theorem authenticate_passes (db : Store) (now : Z) (req req' : AuthRequest) :
  authenticate cfg db now req = Next req' ->
  exists decoded u,
    isBearer (authorization req) = true /\
    jwt_verify (bearerToken (authorization req)) (secret cfg) now = Ok decoded /\
    In u db /\ id u = userId decoded /\
    user req' = Some {| ident_id := id u; ident_email := email u |} /\
    authorization req' = authorization req /\
    body req' = body req /\ query req' = query req /\ params req' = params req.
Proof.
  intros Ha.
  destruct (authenticate_cases cfg db now req)
    as [[_ E] | [(? & _ & _ & E) | [(? & _ & _ & _ & E) | (decoded & u & Hb & Hv & Hu & E)]]];
    rewrite E in Ha; try discriminate.
  injection Ha as <-. exists decoded, u.
  destruct (findUnique_id_Some _ _ _ Hu) as [Hin Hid].
  repeat split; assumption.
Qed.

(** With a store that answers from a table, [authenticate_given] is
    [authenticate]. *)
Lemma authenticate_given_answering (db : Store) (now : Z) (req : AuthRequest) :
  authenticate_given cfg (fun uid => Ok (findUnique_id db uid)) now req
  = authenticate cfg db now req.
Proof.
  unfold authenticate_given, authenticate, authenticate_try.
  destruct (isBearer (authorization req)); simpl; [| reflexivity].
  destruct (jwt_verify _ _ _) as [decoded | e]; simpl; [| reflexivity].
  destruct (findUnique_id db (userId decoded)); reflexivity.
Qed.

Lemma TokenExpiredError_is_JsonWebTokenError (err : JsError) :
  instanceof_TokenExpiredError err = true -> instanceof_JsonWebTokenError err = true.
Proof. destruct err; (reflexivity || discriminate). Qed.

(** X9.  Whatever the store answers, a failure of [authenticate] is either
    an [UnauthorizedError] with one of three messages, which the error
    translator sends as 401, or the very error with which the store's
    lookup rejected, handed on unchanged after the token was accepted;
    [authenticate] originates no other error. *)
Theorem authenticate_given_fails (env : ProcessEnv)
  (find : string -> Result (option User)) (now : Z) (req : AuthRequest) (err : JsError) :
  authenticate_given cfg find now req = NextErr err ->
  ((err = UnauthorizedError "No token provided" \/
    err = UnauthorizedError "Invalid token" \/
    err = UnauthorizedError "User not found") /\
   res_status (errorHandler env err) = 401 /\
   res_errors (errorHandler env err) = None) \/
  (exists decoded,
     isBearer (authorization req) = true /\
     jwt_verify (bearerToken (authorization req)) (secret cfg) now = Ok decoded /\
     find (userId decoded) = Throw err /\
     instanceof_JsonWebTokenError err = false).
Proof.
  unfold authenticate_given.
  destruct (isBearer (authorization req)) eqn:Hb; simpl;
    [| intros [= <-]; left; repeat split; auto].
  destruct (jwt_verify (bearerToken (authorization req)) (secret cfg) now)
    as [decoded | e] eqn:Hv; simpl.
  - destruct (find (userId decoded)) as [[u |] | e] eqn:Hf; simpl.
    + discriminate.
    + intros [= <-]. left. repeat split; auto.
    + destruct (instanceof_JsonWebTokenError e) eqn:Hj.
      * intros [= <-]. left. repeat split; auto.
      * destruct (instanceof_TokenExpiredError e) eqn:Ht.
        { apply TokenExpiredError_is_JsonWebTokenError in Ht. congruence. }
        intros [= <-]. right. exists decoded. repeat split; assumption.
  - rewrite (jwt_verify_throws _ _ _ _ Hv). intros [= <-]. left. repeat split; auto.
Qed.

(** X10.  Whatever the store answers to the two lookups of [GET /me], the
    route answers in one of three ways: 401 with "No token provided",
    "Invalid token" or "User not found"; 200 with the profile of a row the
    store returned to the service; or what the error translator makes of
    an error with which one of the lookups rejected.  The controller's own
    "User not authenticated" is never reached through the route. *)
Theorem GET_me_given_answers (env : ProcessEnv)
  (find_auth find_profile : string -> Result (option User))
  (now : Z) (req : AuthRequest) :
  (exists response,
     GET_me_given cfg env find_auth find_profile now req = ReplyError response /\
     res_status response = 401 /\
     (res_message response = "No token provided" \/
      res_message response = "Invalid token" \/
      res_message response = "User not found")) \/
  (exists uid u,
     find_profile uid = Ok (Some u) /\
     GET_me_given cfg env find_auth find_profile now req = ReplyData 200 (profile u)) \/
  (exists uid e,
     (find_auth uid = Throw e \/ find_profile uid = Throw e) /\
     GET_me_given cfg env find_auth find_profile now req
     = ReplyError (errorHandler env e)).
Proof.
  unfold GET_me_given.
  destruct (authenticate_given cfg find_auth now req) as [req' | err] eqn:Ha.
  - assert (Hu : exists u, user req' = Some {| ident_id := id u; ident_email := email u |}).
    { revert Ha. unfold authenticate_given.
      destruct (isBearer (authorization req)); simpl; [| discriminate].
      destruct (jwt_verify _ _ _) as [decoded | e]; simpl.
      - destruct (find_auth (userId decoded)) as [[u |] | e]; simpl.
        + intros [= <-]. exists u. reflexivity.
        + discriminate.
        + destruct (instanceof_JsonWebTokenError e); [discriminate |].
          destruct (instanceof_TokenExpiredError e); discriminate.
      - destruct (instanceof_JsonWebTokenError e); [discriminate |].
        destruct (instanceof_TokenExpiredError e); discriminate. }
    destruct Hu as (u & Hu). unfold getMe_given, getProfile_given. rewrite Hu. simpl.
    destruct (find_profile (id u)) as [[v |] | e] eqn:Hp; simpl.
    + right. left. exists (id u), v. split; [exact Hp | reflexivity].
    + left. eexists. split; [reflexivity |]. split; [reflexivity |]. simpl. auto.
    + right. right. exists (id u), e. split; [right; exact Hp | reflexivity].
  - destruct (authenticate_given_fails env _ _ _ _ Ha)
      as [(Hmsg & Hs & _) | (decoded & _ & _ & Hf & _)].
    + left. eexists. split; [reflexivity |]. split; [exact Hs |].
      destruct Hmsg as [-> | [-> | ->]]; simpl; auto.
    + right. right. exists (userId decoded), err. split; [left; exact Hf | reflexivity].
Qed.

End TokenLifetime.

(** ** What the validation gate lets through *)

Lemma validate_passes_iff (schema : Schema) (req : AuthRequest) :
  validate schema req = Next req <-> issues_of schema [] (schemaInput req) = [].
Proof.
  unfold validate, parseAsync.
  destruct (issues_of schema [] (schemaInput req)); simpl; split;
    (reflexivity || discriminate).
Qed.

Lemma check_string_nil (checks : list StringCheck) (path : list string) (s : string) :
  check_string checks path s = [] <-> forallb (fun c => check_test c s) checks = true.
Proof.
  unfold check_string. induction checks as [| c rest IH]; simpl; [tauto |].
  destruct (check_test c s); simpl; [exact IH | split; discriminate].
Qed.

Section GateAccepts.
Context `{ZodEmail}.

(** X11.  [validate(RegisterSchema)] passes a request on exactly when its
    body is an object whose [email] is a string the email test accepts,
    whose [password] is a string of at least 8 code units with an
    uppercase letter, a lowercase letter and a digit, whose [firstName] is
    absent or a non-empty string, and whose [lastName] is absent or a
    string; the query, the route parameters and any other property of the
    body play no part. *)
Theorem RegisterSchema_accepts (req : AuthRequest) :
  validate RegisterSchema req = Next req <->
  exists data,
    RegisterInput_of (body req) = Some data /\
    isEmail (reg_email data) = true /\
    (8 <= String.length (reg_password data))%nat /\
    hasCharIn 65 90 (reg_password data) = true /\
    hasCharIn 97 122 (reg_password data) = true /\
    hasCharIn 48 57 (reg_password data) = true /\
    reg_firstName data <> Some "".
Proof.
  rewrite validate_passes_iff.
  unfold RegisterSchema, schemaInput, RegisterInput_of.
  cbn [issues_of flat_map app].
  change (prop (JObj [("body", body req); ("query", query req); ("params", params req)])
               "body") with (body req).
  destruct (body req) as [| | b | n | str | t | items | props];
    try (split; [discriminate | intros (data & Hd & _); discriminate Hd]).
  remember (prop (JObj props) "email") as ve eqn:He.
  remember (prop (JObj props) "password") as vp eqn:Hp.
  remember (prop (JObj props) "firstName") as vf eqn:Hf.
  remember (prop (JObj props) "lastName") as vl eqn:Hl.
  clear He Hp Hf Hl.
  rewrite !app_nil.
  destruct ve as [| | ? | ? | mail | ? | ? | ?];
    try (split; [intros [[[=] _] _] | intros (data & Hd & _); discriminate Hd]).
  destruct vp as [| | ? | ? | pw | ? | ? | ?];
    try (split; [intros [(_ & [=] & _) _] | intros (data & Hd & _); discriminate Hd]).
  destruct vf as [| | ? | ? | first | ? | ? | ?];
    try (split; [intros [(_ & _ & [=] & _) _] | intros (data & Hd & _); discriminate Hd]);
    destruct vl as [| | ? | ? | last | ? | ? | ?];
    try (split; [intros [(_ & _ & _ & [=] & _) _] | intros (data & Hd & _); discriminate Hd]);
    rewrite !check_string_nil;
    cbn [forallb check_test string_min regex_range email_check]; simpl mbind;
    rewrite ?andb_true_r, !andb_true_iff, ?Nat.leb_le.
  all: split;
    [ intros [(He & (Hlen & Hu & Hl & Hd) & Hf & _) _];
      eexists; split; [reflexivity |];
      cbn [reg_email reg_password reg_firstName reg_lastName];
      repeat split; try assumption; try congruence
    | intros (data & [= <-] & He & Hlen & Hu & Hl & Hd & Hf);
      cbn [reg_email reg_password reg_firstName reg_lastName] in *;
      repeat split; try assumption; try congruence ].
  all: destruct first; simpl in *; first [lia | congruence].
Qed.

(** X12.  [validate(LoginSchema)] passes a request on exactly when its body
    is an object whose [email] is a string the email test accepts and whose
    [password] is a non-empty string; so every request the registration
    gate lets through, the login gate lets through as well. *)
Theorem LoginSchema_accepts (req : AuthRequest) :
  (validate LoginSchema req = Next req <->
   exists data,
     LoginInput_of (body req) = Some data /\
     isEmail (login_email data) = true /\
     login_password data <> "") /\
  (validate RegisterSchema req = Next req -> validate LoginSchema req = Next req).
Proof.
  assert (Hlogin : validate LoginSchema req = Next req <->
                   exists data,
                     LoginInput_of (body req) = Some data /\
                     isEmail (login_email data) = true /\
                     login_password data <> "").
  { rewrite validate_passes_iff.
    unfold LoginSchema, schemaInput, LoginInput_of.
    cbn [issues_of flat_map app].
    change (prop (JObj [("body", body req); ("query", query req); ("params", params req)])
                 "body") with (body req).
    destruct (body req) as [| | b | n | str | t | items | props];
      try (split; [discriminate | intros (data & Hd & _); discriminate Hd]).
    remember (prop (JObj props) "email") as ve eqn:He.
    remember (prop (JObj props) "password") as vp eqn:Hp.
    clear He Hp.
    rewrite !app_nil.
    destruct ve as [| | ? | ? | mail | ? | ? | ?];
      try (split; [intros [[[=] _] _] | intros (data & Hd & _); discriminate Hd]).
    destruct vp as [| | ? | ? | pw | ? | ? | ?];
      try (split; [intros [(_ & [=] & _) _] | intros (data & Hd & _); discriminate Hd]).
    rewrite !check_string_nil.
    cbn [forallb check_test string_min email_check]; simpl mbind.
    rewrite ?andb_true_r, ?Nat.leb_le.
    split.
    - intros [(He & Hlen & _) _]. eexists. split; [reflexivity |].
      cbn [login_email login_password]. split; [exact He |].
      destruct pw; simpl in Hlen; [lia | discriminate].
    - intros (data & [= <-] & He & Hpw). cbn [login_email login_password] in *.
      repeat split; try assumption.
      destruct pw; simpl; [congruence | lia]. }
  split; [exact Hlogin |].
  rewrite RegisterSchema_accepts, Hlogin.
  intros (data & Hd & He & Hlen & _).
  unfold RegisterInput_of in Hd. unfold LoginInput_of.
  destruct (asString (prop (body req) "email")) as [mail |]; [| discriminate Hd].
  destruct (asString (prop (body req) "password")) as [pw |]; [| discriminate Hd].
  simpl in Hd.
  destruct (asOptionalString (prop (body req) "firstName")); [| discriminate Hd].
  destruct (asOptionalString (prop (body req) "lastName")); [| discriminate Hd].
  injection Hd as <-. cbn [reg_email reg_password] in *.
  eexists. split; [reflexivity |]. cbn [login_email login_password].
  split; [exact He |]. destruct pw; simpl in Hlen; [lia | discriminate].
Qed.

End GateAccepts.

(** ** The routes of [/register] and [/login] *)

Section RouteAnswers.
Context `{JwtCodec} `{Bcrypt} `{ZodEmail}.
Variable cfg : JwtConfig.
Variable env : ProcessEnv.

Lemma validate_Next (schema : Schema) (req req' : AuthRequest) :
  validate schema req = Next req' -> req' = req /\ validate schema req = Next req.
Proof.
  unfold validate. destruct (parseAsync schema (schemaInput req)) as [[] | err].
  - intros [= <-]. split; reflexivity.
  - destruct (instanceof_ZodError err); discriminate.
Qed.


(** With a store that answers from a table and a signer that returns,
    [register_given] and [login_given] are [register] and [login]. *)
Lemma register_given_answering (db : Store) (amb : Ambient) (data : RegisterInput) :
  register_given (fun mail => Ok (findUnique_email db mail))
                 (fun table row => create table amb row)
                 (fun uid mail => Ok (generateToken cfg (amb_clock amb) uid mail))
                 db amb data
  = register cfg db amb data.
Proof.
  unfold register_given, register, register_check, register_insert.
  destruct (findUnique_email db (reg_email data)); [reflexivity |].
  destruct (create db amb _) as [db' [row | err]]; reflexivity.
Qed.

Lemma login_given_answering (db : Store) (amb : Ambient) (data : LoginInput) :
  login_given (fun mail => Ok (findUnique_email db mail))
              (fun uid mail => Ok (generateToken cfg (amb_clock amb) uid mail)) data
  = login cfg db amb data.
Proof.
  unfold login_given, login. simpl.
  destruct (findUnique_email db (login_email data)) as [u |]; [| reflexivity].
  destruct (bcrypt_compare _ _); reflexivity.
Qed.



(** X22.  [register] is not atomic: when the email is new, the insert
    succeeds and [jwt.sign] then throws, [register] fails with the error of
    [jwt.sign] and yet the table holds the new row; from then on the email
    resolves to that row, and a later [register] under it is refused with
    the [ConflictError] whatever the signer does. *)
Theorem register_not_atomic (sign : string -> string -> Result string)
  (db : Store) (amb : Ambient) (data : RegisterInput) (e : JsError) :
  findUnique_email db (reg_email data) = None ->
  findUnique_id db (amb_uuid amb) = None ->
  sign (amb_uuid amb) (reg_email data) = Throw e ->
  let row := new_row amb (registration amb data) in
  let db' := (db ++ [row])%list in
  register_given (fun mail => Ok (findUnique_email db mail))
                 (fun table r => create table amb r) sign db amb data
  = (db', Throw e) /\
  findUnique_email db' (reg_email data) = Some row /\
  (forall sign' amb' again, reg_email again = reg_email data ->
     register_given (fun mail => Ok (findUnique_email db' mail))
                    (fun table r => create table amb' r) sign' db' amb' again
     = (db', Throw (ConflictError "User with this email already exists"))).
Proof.
  intros He Hi Hs row db'.
  assert (Hnew : findUnique_email db' (reg_email data) = Some row).
  { unfold db'. rewrite findUnique_email_app, He. simpl. rewrite String.eqb_refl.
    reflexivity. }
  repeat apply conj.
  - unfold register_given, create. rewrite He. simpl. rewrite He, Hi. simpl.
    rewrite Hs. reflexivity.
  - exact Hnew.
  - intros sign' amb' again Hsame. unfold register_given. rewrite Hsame, Hnew.
    reflexivity.
Qed.

(** X15.  What registered through [POST /register] logs in through
    [POST /login]: provided bcrypt verifies the digests it makes, the
    request that was answered 201 is, sent to [/login] against the
    resulting table, answered 200 with the same user object. *)
Theorem POST_register_then_login (db db' : Store) (amb amb' : Ambient)
  (req : AuthRequest) (message : string) (r : AuthResponse) :
  (forall pw salt, bcrypt_compare pw (bcrypt_hash pw 12%N salt) = true) ->
  POST_register cfg env db amb req = Some (db', AuthReplyOk 201 message r) ->
  exists r',
    POST_login cfg env db' amb' req = Some (AuthReplyOk 200 "Login successful" r') /\
    resp_user r' = resp_user r.
Proof.
  intros Hbcrypt Hpost. unfold POST_register in Hpost.
  destruct (validate RegisterSchema req) as [req' | err] eqn:Hv; [| discriminate Hpost].
  destruct (validate_Next _ _ _ Hv) as [-> Hpass].
  unfold AuthController_register in Hpost.
  destruct (RegisterInput_of (body req)) as [data |] eqn:Hd; [| discriminate Hpost].
  simpl in Hpost.
  destruct (register cfg db amb data) as [db1 [r1 | err]] eqn:Hr; [| discriminate Hpost].
  injection Hpost as <- _ <-.
  pose proof (register_then_login cfg _ _ _ amb' _ _ Hr (Hbcrypt _ _)) as Hlogin.
  pose proof (proj2 (LoginSchema_accepts req) Hpass) as Hgate.
  unfold POST_login. rewrite Hgate. unfold AuthController_login.
  assert (Hl : LoginInput_of (body req)
               = Some {| login_email := reg_email data;
                         login_password := reg_password data |}).
  { unfold RegisterInput_of in Hd. unfold LoginInput_of.
    destruct (asString (prop (body req) "email")) as [mail |]; [| discriminate Hd].
    destruct (asString (prop (body req) "password")) as [pw |]; [| discriminate Hd].
    simpl in Hd.
    destruct (asOptionalString (prop (body req) "firstName")); [| discriminate Hd].
    destruct (asOptionalString (prop (body req) "lastName")); [| discriminate Hd].
    injection Hd as <-. reflexivity. }
  rewrite Hl. simpl. rewrite Hlogin. eexists. split; reflexivity.
Qed.

End RouteAnswers.

(** ** The error translator, whatever the error *)

(** X16.  Every response of the error translator has [success: false]; it
    carries a [stack] exactly when [NODE_ENV] is "development" and the
    error has one, and an [errors] array exactly when the error is a
    [ZodError]. *)
Theorem errorHandler_shape (env : ProcessEnv) (err : JsError) :
  res_success (errorHandler env err) = false /\
  (forall trace, res_stack (errorHandler env err) = Some trace <->
                 NODE_ENV env = Some "development" /\ stack_of env err = Some trace) /\
  (res_errors (errorHandler env err) <> None <-> instanceof_ZodError err = true).
Proof.
  split; [| split].
  - unfold errorHandler. destruct (translate err) as [[statusCode message] errors].
    reflexivity.
  - intros trace. rewrite errorHandler_stack.
    destruct (decide (NODE_ENV env = Some "development")) as [Hdev | Hdev].
    + tauto.
    + split; [discriminate | tauto].
  - unfold errorHandler, translate.
    destruct err as [| | | | | | name m]; simpl;
      try (split; intros; first [reflexivity | discriminate | congruence]).
    destruct (String.eqb name "JsonWebTokenError"); simpl;
      [split; [congruence | discriminate] |].
    destruct (String.eqb name "TokenExpiredError"); simpl;
      split; (congruence || discriminate).
Qed.


(** ** The Authorization header *)

Lemma prefix_split (p s : string) :
  String.prefix p s = true -> s = p +:+ substring (String.length p) s.
Proof.
  revert s. induction p as [| a p IH]; intros s Hp; [reflexivity |].
  destruct s as [| b s]; simpl in Hp; [discriminate Hp |].
  destruct (Ascii.ascii_dec a b) as [-> | _]; [| discriminate Hp].
  change (String b s = String b (p +:+ substring (String.length p) s)).
  f_equal. apply IH, Hp.
Qed.

(** X18.  A header is read as a Bearer header exactly when it is
    [Bearer ] followed by some string, and that string is the token the
    middleware verifies; an absent or empty header is never one. *)
Theorem bearer_header (authHeader : option string) :
  isBearer authHeader = true <->
  exists token, authHeader = Some ("Bearer " +:+ token) /\ bearerToken authHeader = token.
Proof.
  split.
  - destruct authHeader as [h |]; [| discriminate].
    unfold isBearer, startsWith. intros [_ Hp]%andb_true_iff.
    exists (substring 7 h). split; [| reflexivity].
    f_equal. apply (prefix_split "Bearer " h Hp).
  - intros (token & -> & _). apply isBearer_prefixed.
Qed.

(** ** Start-up configuration *)

Lemma enum_issues_nil (key : string) (v : option string) :
  EnvConfig.enum_issues key v = [] <->
  forall s, v = Some s -> s = "development" \/ s = "production" \/ s = "test".
Proof.
  unfold EnvConfig.enum_issues, EnvConfig.modes. destruct v as [s |]; [| split; [discriminate | reflexivity]].
  simpl. rewrite orb_false_r.
  destruct (String.eqb_spec s "development") as [-> | Hd]; simpl.
  { split; [intros _ ? [= <-]; auto | reflexivity]. }
  destruct (String.eqb_spec s "production") as [-> | Hp]; simpl.
  { split; [intros _ ? [= <-]; auto | reflexivity]. }
  destruct (String.eqb_spec s "test") as [-> | Ht]; simpl.
  { split; [intros _ ? [= <-]; auto | reflexivity]. }
  split; [discriminate |]. intros Hs. destruct (Hs s eq_refl) as [-> | [-> | ->]]; congruence.
Qed.

Lemma required_issues_nil (key : string) (test : string -> bool) (message : string)
  (v : option string) :
  EnvConfig.required_issues key test message v = [] <->
  exists s, v = Some s /\ test s = true.
Proof.
  unfold EnvConfig.required_issues. destruct v as [s |].
  - destruct (test s) eqn:Ht.
    + split; [eauto | reflexivity].
    + split; [discriminate | intros (s' & [= <-] & Hs); congruence].
  - split; [discriminate | intros (s & [=] & _)].
Qed.

Lemma optional_issues_nil (key : string) (test : string -> bool) (message : string)
  (v : option string) :
  EnvConfig.optional_issues key test message v = [] <->
  forall s, v = Some s -> test s = true.
Proof.
  unfold EnvConfig.optional_issues. destruct v as [s |].
  - destruct (test s) eqn:Ht.
    + split; [intros _ ? [= <-]; exact Ht | reflexivity].
    + split; [discriminate | intros Hs; specialize (Hs s eq_refl); congruence].
  - split; [discriminate | reflexivity].
Qed.

Section Startup.
Context `{EnvConfig.ZodUrl} `{ZodEmail}.

(** What [parseEnv] does, by the issues of the schema. *)
Lemma parseEnv_cases (vars : gmap string string) :
  (EnvConfig.envSchema_issues vars = [] /\
   EnvConfig.parseEnv vars = EnvConfig.Loaded (EnvConfig.envSchema_value vars)) \/
  (EnvConfig.envSchema_issues vars <> [] /\
   EnvConfig.parseEnv vars = EnvConfig.Exited 1 (EnvConfig.envSchema_issues vars)).
Proof.
  unfold EnvConfig.parseEnv, EnvConfig.envSchema_parse.
  destruct (EnvConfig.envSchema_issues vars); [left | right]; split;
    (reflexivity || discriminate).
Qed.

(** X19.  Start-up goes on exactly when [NODE_ENV] is unset or one of the
    three modes, [DATABASE_URL] is set to a URL, [JWT_SECRET] is set to at
    least 32 code units and [EMAIL_FROM] is unset or an email address; in
    every other case it prints at least one issue and exits with code 1.
    No value of [PORT], of the rate-limit variables or of any other
    variable stops it. *)
Theorem parseEnv_accepts (vars : gmap string string) :
  ((exists env, EnvConfig.parseEnv vars = EnvConfig.Loaded env) <->
   (forall mode, vars !! "NODE_ENV" = Some mode ->
      mode = "development" \/ mode = "production" \/ mode = "test") /\
   (exists url, vars !! "DATABASE_URL" = Some url /\ EnvConfig.isUrl url = true) /\
   (exists key, vars !! "JWT_SECRET" = Some key /\ (32 <= String.length key)%nat) /\
   (forall from, vars !! "EMAIL_FROM" = Some from -> isEmail from = true)) /\
  ((exists env, EnvConfig.parseEnv vars = EnvConfig.Loaded env) \/
   (exists issues, issues <> [] /\ EnvConfig.parseEnv vars = EnvConfig.Exited 1 issues)).
Proof.
  split.
  - transitivity (EnvConfig.envSchema_issues vars = []).
    + destruct (parseEnv_cases vars) as [[Hi ->] | [Hi ->]].
      * split; [intros _; exact Hi | eauto].
      * split; [intros (env & [=]) | contradiction].
    + unfold EnvConfig.envSchema_issues.
      rewrite !app_nil, enum_issues_nil, !required_issues_nil, optional_issues_nil.
      setoid_rewrite Nat.leb_le. reflexivity.
  - destruct (parseEnv_cases vars) as [[_ ->] | [Hi ->]]; eauto.
Qed.

(** X20.  In a configuration that loaded, exactly one of [isDevelopment],
    [isProduction] and [isTest] holds, [isDevelopment] holding also when
    [NODE_ENV] is unset; the secret is the variable [JWT_SECRET] itself, at
    least 32 code units long; the database URL is the variable
    [DATABASE_URL]; and the token lifetime is "7d" unless
    [JWT_EXPIRES_IN] sets it. *)
Theorem loaded_config (vars : gmap string string) (env : EnvConfig.Env) :
  EnvConfig.parseEnv vars = EnvConfig.Loaded env ->
  let c := EnvConfig.config env in
  let flags := (EnvConfig.isDevelopment (EnvConfig.server c),
                EnvConfig.isProduction (EnvConfig.server c),
                EnvConfig.isTest (EnvConfig.server c)) in
  (flags = (true, false, false) \/ flags = (false, true, false) \/
   flags = (false, false, true)) /\
  (EnvConfig.isDevelopment (EnvConfig.server c) = true <->
   vars !! "NODE_ENV" = None \/ vars !! "NODE_ENV" = Some "development") /\
  vars !! "JWT_SECRET" = Some (EnvConfig.jwt_secret c) /\
  (32 <= String.length (EnvConfig.jwt_secret c))%nat /\
  vars !! "DATABASE_URL" = Some (EnvConfig.database_url c) /\
  EnvConfig.jwt_expiresIn c = default "7d" (vars !! "JWT_EXPIRES_IN").
Proof.
  intros Hload.
  assert (Hok : exists e, EnvConfig.parseEnv vars = EnvConfig.Loaded e) by eauto.
  apply (proj1 (parseEnv_accepts vars)) in Hok.
  destruct Hok as (Hmode & (url & Hurl & _) & (key & Hkey & Hlen) & _).
  destruct (parseEnv_cases vars) as [[_ Hv] | [_ Hv]]; rewrite Hv in Hload;
    [| discriminate Hload].
  injection Hload as <-. cbv zeta. unfold EnvConfig.config, EnvConfig.envSchema_value.
  simpl. rewrite Hurl, Hkey. simpl.
  destruct (vars !! "NODE_ENV") as [mode |] eqn:Hm; simpl.
  - destruct (Hmode mode eq_refl) as [-> | [-> | ->]]; simpl;
      repeat split; auto; try (intros [[=] | [=]]); try discriminate.
  - repeat split; auto.
Qed.

(** X21.  With [NODE_ENV] unset the configuration is in development mode
    ([isDevelopment] holds, by the schema's default) and yet the error
    translator, which reads [process.env.NODE_ENV] itself, sends no error
    with its [stack]. *)
Theorem unset_mode_sends_no_stack (vars : gmap string string) (env : EnvConfig.Env)
  (stack : JsError -> option string) (err : JsError) :
  vars !! "NODE_ENV" = None ->
  EnvConfig.parseEnv vars = EnvConfig.Loaded env ->
  EnvConfig.isDevelopment (EnvConfig.server (EnvConfig.config env)) = true /\
  res_stack (errorHandler {| NODE_ENV := vars !! "NODE_ENV"; stack_of := stack |} err)
  = None.
Proof.
  intros Hunset Hload. split.
  - apply (loaded_config vars env Hload). left. exact Hunset.
  - rewrite errorHandler_stack. simpl. rewrite Hunset.
    rewrite decide_False by discriminate. reflexivity.
Qed.

End Startup.

(** ** The properties above on the example table *)

Lemma register_appends_row_witness :
  exists row,
    MoreExamples.with_bob = ([Reference.alice] ++ [row])%list /\
    id row = "u2" /\ email row = "bob@example.com" /\
    password row = bcrypt_hash "Passw0rd" 12%N "s" /\
    firstName row = Some "Bob" /\ lastName row = None /\
    phone row = None /\ createdAt row = 1700000500000 /\
    resp_user MoreExamples.bob_response = publicUser row /\
    ~ In "bob@example.com" (map email [Reference.alice]).
Proof.
  apply (register_appends_row Reference.cfg [Reference.alice] MoreExamples.with_bob
           Reference.amb Examples.bob MoreExamples.bob_response).
  reflexivity.
Defined.

Lemma register_then_lookup_witness :
  findUnique_email MoreExamples.with_bob "bob@example.com" = Some MoreExamples.bob_row /\
  findUnique_id MoreExamples.with_bob "u2" = Some MoreExamples.bob_row /\
  (forall mail, mail <> "bob@example.com" ->
     findUnique_email MoreExamples.with_bob mail
     = findUnique_email [Reference.alice] mail) /\
  (forall amb' again, reg_email again = "bob@example.com" ->
     register Reference.cfg MoreExamples.with_bob amb' again
     = (MoreExamples.with_bob,
        Throw (ConflictError "User with this email already exists"))).
Proof.
  apply (register_then_lookup Reference.cfg [Reference.alice] MoreExamples.with_bob
           Reference.amb Examples.bob MoreExamples.bob_response).
  reflexivity.
Defined.

Lemma register_then_login_witness :
  login Reference.cfg MoreExamples.with_bob Reference.amb MoreExamples.bob_login
  = Ok {| resp_user := resp_user MoreExamples.bob_response;
          token := generateToken Reference.cfg (amb_clock Reference.amb)
                                 "u2" "bob@example.com" |}.
Proof.
  apply (register_then_login Reference.cfg [Reference.alice] MoreExamples.with_bob
           Reference.amb Reference.amb Examples.bob MoreExamples.bob_response);
    reflexivity.
Defined.

Lemma register_then_me_witness :
  exists me,
    GET_me Reference.cfg Reference.production MoreExamples.with_bob 1700000510
           (Reference.request (Some ("Bearer " +:+ token MoreExamples.bob_response)))
    = ReplyData 200 me /\
    me = profile MoreExamples.bob_row /\
    me !! "id" = resp_user MoreExamples.bob_response !! "id" /\
    me !! "email" = resp_user MoreExamples.bob_response !! "email" /\
    me !! "email" = Some (JStr "bob@example.com").
Proof.
  apply (register_then_me Reference.cfg Reference.production [Reference.alice]
           MoreExamples.with_bob Reference.amb Examples.bob MoreExamples.bob_response
           1700000510
           (Reference.request (Some ("Bearer " +:+ token MoreExamples.bob_response))));
    reflexivity.
Defined.

Lemma login_then_authenticate_witness :
  let req :=
    Reference.request
      (Some ("Bearer " +:+ generateToken Reference.cfg 1700000500 "u1" "alice@example.com")) in
  exists u,
    findUnique_email [Reference.alice] "alice@example.com" = Some u /\
    authenticate Reference.cfg [Reference.alice] 1700000510 req
    = Next (attach req {| ident_id := id u; ident_email := email u |}).
Proof.
  intros req.
  apply (login_then_authenticate Reference.cfg [Reference.alice] Reference.amb
           (Examples.alice_login "Secret123")
           {| resp_user := publicUser Reference.alice;
              token := generateToken Reference.cfg 1700000500 "u1" "alice@example.com" |}
           1700000510 req).
  - reflexivity.
  - apply NoDup_singleton.
  - reflexivity.
  - reflexivity.
Defined.

Lemma token_lifetime_witness :
  jwt_verify (generateToken {| secret := "k"; expiresIn := 0 |} 100 "u1" "a@b.com") "k" 100
  = Throw (TokenExpiredError "jwt expired" 100).
Proof.
  apply (token_lifetime {| secret := "k"; expiresIn := 0 |} "u1" "a@b.com" 100 100);
    simpl; lia.
Defined.

Lemma foreign_token_rejected_witness :
  let req :=
    Reference.request
      (Some ("Bearer " +:+ generateToken MoreExamples.other_cfg 100 "u1" "alice@example.com")) in
  authenticate Reference.cfg [Reference.alice] 200 req
  = NextErr (UnauthorizedError "Invalid token") /\
  optionalAuth Reference.cfg [Reference.alice] 200 req = Next req.
Proof.
  intros req.
  apply (foreign_token_rejected Reference.cfg MoreExamples.other_cfg [Reference.alice]
           100 200 "u1" "alice@example.com" req).
  - discriminate.
  - reflexivity.
Defined.

Lemma authenticate_passes_witness :
  let req :=
    Reference.request
      (Some ("Bearer " +:+ generateToken Reference.cfg 100 "u1" "alice@example.com")) in
  let req' := attach req {| ident_id := "u1"; ident_email := "alice@example.com" |} in
  exists decoded u,
    isBearer (authorization req) = true /\
    jwt_verify (bearerToken (authorization req)) (secret Reference.cfg) 200 = Ok decoded /\
    In u [Reference.alice] /\ id u = userId decoded /\
    user req' = Some {| ident_id := id u; ident_email := email u |} /\
    authorization req' = authorization req /\
    body req' = body req /\ query req' = query req /\ params req' = params req.
Proof.
  intros req req'.
  apply (authenticate_passes Reference.cfg [Reference.alice] 200 req req').
  vm_compute. reflexivity.
Defined.

(** Alice's token while the store cannot be reached: the store's error
    is what [authenticate] hands on. *)
Lemma authenticate_given_fails_witness :
  let req :=
    Reference.request
      (Some ("Bearer " +:+ generateToken Reference.cfg 100 "u1" "alice@example.com")) in
  ((MoreExamples.unreachable = UnauthorizedError "No token provided" \/
    MoreExamples.unreachable = UnauthorizedError "Invalid token" \/
    MoreExamples.unreachable = UnauthorizedError "User not found") /\
   res_status (errorHandler Reference.production MoreExamples.unreachable) = 401 /\
   res_errors (errorHandler Reference.production MoreExamples.unreachable) = None) \/
  (exists decoded,
     isBearer (authorization req) = true /\
     jwt_verify (bearerToken (authorization req)) (secret Reference.cfg) 200 = Ok decoded /\
     MoreExamples.find_unreachable (userId decoded) = Throw MoreExamples.unreachable /\
     instanceof_JsonWebTokenError MoreExamples.unreachable = false).
Proof.
  intros req.
  apply (authenticate_given_fails Reference.cfg Reference.production
           MoreExamples.find_unreachable 200 req MoreExamples.unreachable).
  vm_compute. reflexivity.
Defined.

Lemma POST_register_then_login_witness :
  exists r',
    POST_login Reference.cfg Reference.production
               [Reference.alice; MoreExamples.carol_row] Reference.amb
               (MoreExamples.post MoreExamples.carol_body)
    = Some (AuthReplyOk 200 "Login successful" r') /\
    resp_user r' = resp_user MoreExamples.carol_response.
Proof.
  apply (POST_register_then_login Reference.cfg Reference.production
           [Reference.alice] [Reference.alice; MoreExamples.carol_row]
           Reference.amb Reference.amb (MoreExamples.post MoreExamples.carol_body)
           "User registered successfully" MoreExamples.carol_response).
  - intros pw salt. apply String.eqb_refl.
  - vm_compute. reflexivity.
Defined.

Lemma loaded_config_witness :
  let c := EnvConfig.config (EnvConfig.envSchema_value MoreExamples.minimal_env) in
  let flags := (EnvConfig.isDevelopment (EnvConfig.server c),
                EnvConfig.isProduction (EnvConfig.server c),
                EnvConfig.isTest (EnvConfig.server c)) in
  (flags = (true, false, false) \/ flags = (false, true, false) \/
   flags = (false, false, true)) /\
  (EnvConfig.isDevelopment (EnvConfig.server c) = true <->
   MoreExamples.minimal_env !! "NODE_ENV" = None \/
   MoreExamples.minimal_env !! "NODE_ENV" = Some "development") /\
  MoreExamples.minimal_env !! "JWT_SECRET" = Some (EnvConfig.jwt_secret c) /\
  (32 <= String.length (EnvConfig.jwt_secret c))%nat /\
  MoreExamples.minimal_env !! "DATABASE_URL" = Some (EnvConfig.database_url c) /\
  EnvConfig.jwt_expiresIn c = default "7d" (MoreExamples.minimal_env !! "JWT_EXPIRES_IN").
Proof.
  apply (loaded_config MoreExamples.minimal_env
           (EnvConfig.envSchema_value MoreExamples.minimal_env)).
  vm_compute. reflexivity.
Defined.

Lemma unset_mode_sends_no_stack_witness :
  EnvConfig.isDevelopment
    (EnvConfig.server
       (EnvConfig.config (EnvConfig.envSchema_value MoreExamples.minimal_env))) = true /\
  res_stack (errorHandler {| NODE_ENV := MoreExamples.minimal_env !! "NODE_ENV";
                             stack_of := stack_of Reference.development |}
               GateExamples.refused_connection)
  = None.
Proof.
  apply (unset_mode_sends_no_stack MoreExamples.minimal_env
           (EnvConfig.envSchema_value MoreExamples.minimal_env)
           (stack_of Reference.development) GateExamples.refused_connection).
  - vm_compute. reflexivity.
  - vm_compute. reflexivity.
Defined.

(** Bob registers while the signer cannot read its duration. *)
Lemma register_not_atomic_witness :
  register_given (fun mail => Ok (findUnique_email [Reference.alice] mail))
                 (fun table r => create table Reference.amb r)
                 MoreExamples.sign_unreadable [Reference.alice] Reference.amb Examples.bob
  = (MoreExamples.with_bob, Throw MoreExamples.unreadable_duration) /\
  findUnique_email MoreExamples.with_bob "bob@example.com" = Some MoreExamples.bob_row /\
  (forall sign' amb' again, reg_email again = "bob@example.com" ->
     register_given (fun mail => Ok (findUnique_email MoreExamples.with_bob mail))
                    (fun table r => create table amb' r) sign'
                    MoreExamples.with_bob amb' again
     = (MoreExamples.with_bob,
        Throw (ConflictError "User with this email already exists"))).
Proof.
  apply (register_not_atomic MoreExamples.sign_unreadable [Reference.alice]
           Reference.amb Examples.bob MoreExamples.unreadable_duration);
    reflexivity.
Defined.
